(** * Medicinal Cannabis Portal API: filter building, document access and
      boundary validation

    A shallow embedding of [src/main.py] and [src/schemas.py].  Python
    dictionaries are finite maps ([gmap]) keyed by strings, stored documents
    are dictionaries of BSON values, and the handlers are functions over an
    explicit document store. *)

From stdpp Require Import base option list strings gmap pretty.
From Stdlib Require Import ZArith QArith Qcanon Ascii.

Local Open Scope Z_scope.
Local Open Scope string_scope.

(** ** Values and documents *)

(** The BSON values that the four schemas of [schemas.py] put into a
    document: [None], [str], [float] (read as its rational value),
    [List[str]], [datetime] (seconds since the epoch) and the store-assigned
    [ObjectId]. *)
Inductive bson :=
| BNull
| BStr (s : string)
| BNum (x : Qc)
| BStrs (l : list string)
| BDate (t : Z)
| BOid (n : N).

Abbreviation document := (gmap string bson).

(** ** The libraries behind the framework

    Three pieces of behaviour belong to libraries outside the repository:
    the regular-expression engine that the store applies to [$regex], the
    address check behind pydantic's [EmailStr], and Python's [str()] on
    values that are not strings.  They are an interface here. *)
Class Externals := {
  (** [regex_compile pattern options]: [None] when the pattern is rejected,
      otherwise the search predicate on subjects. *)
  regex_compile : string → string → option (string → bool);
  (** [EmailStr s]: [None] when [s] is not an address, otherwise the
      normalised address. *)
  EmailStr : string → option string;
  (** [py_str v] for a value [v] that is not a [str]. *)
  py_str : bson → string
}.

(** ** Outcomes of a request *)

Inductive error :=
| RequestValidationError (loc : string)
| HTTPException (status_code : Z) (detail : string)
| StorageError.

Definition status_of (e : error) : Z :=
  match e with
  | RequestValidationError _ => 422
  | HTTPException c _ => c
  | StorageError => 500
  end.

Inductive result (A : Type) :=
| Ok (a : A)
| Err (e : error).
Arguments Ok {A} a.
Arguments Err {A} e.

#[global] Instance result_ret : MRet result := @Ok.
#[global] Instance result_bind : MBind result := λ A B k m,
  match m with
  | Ok a => k a
  | Err e => Err e
  end.

(** ** Filter expressions

    The dictionaries that the handlers build: a field name maps to a
    condition on that field, and the key ["$or"] maps to a list of
    alternative dictionaries. *)
Inductive cond :=
| Eq (v : string)                     (* {field: v} *)
| In (vs : list string)               (* {field: {"$in": vs}} *)
| Lte (x : Qc)                        (* {field: {"$lte": x}} *)
| Regex (pattern options : string).   (* {field: {"$regex": .., "$options": ..}} *)

Inductive clause :=
| Field (c : cond)
| Or (alternatives : list (gmap string cond)).

Abbreviation query := (gmap string clause).

Section Store.
Context `{!Externals}.

(** How the store evaluates one condition against the value of a field
    ([None]: the document has no such field).  A condition on a scalar
    also holds of an array field when it holds of one of its elements. *)
Definition cond_holds (c : cond) (v : option bson) : bool :=
  match c, v with
  | Eq s, Some (BStr t) => bool_decide (t = s)
  | Eq s, Some (BStrs l) => bool_decide (s ∈ l)
  | In vs, Some (BStr t) => bool_decide (t ∈ vs)
  | In vs, Some (BStrs l) => existsb (λ t, bool_decide (t ∈ vs)) l
  | Lte x, Some (BNum y) => bool_decide (y ≤ x)%Qc
  | Regex p o, Some (BStr t) =>
      match regex_compile p o with Some m => m t | None => false end
  | Regex p o, Some (BStrs l) =>
      match regex_compile p o with Some m => existsb m l | None => false end
  | _, _ => false
  end.

Definition conds_hold (conds : gmap string cond) (d : document) : bool :=
  bool_decide (map_Forall (λ k c, cond_holds c (d !! k) = true) conds).

Definition clause_holds (k : string) (cl : clause) (d : document) : bool :=
  match cl with
  | Field c => cond_holds c (d !! k)
  | Or alts => existsb (λ a, conds_hold a d) alts
  end.

Definition matches (filt : query) (d : document) : bool :=
  bool_decide (map_Forall (λ k cl, clause_holds k cl d = true) filt).

(** The store parses a query before it scans: a pattern that does not
    compile fails the whole read. *)
Definition cond_valid (c : cond) : bool :=
  match c with
  | Regex p o => bool_decide (is_Some (regex_compile p o))
  | _ => true
  end.

Definition clause_valid (k : string) (cl : clause) : bool :=
  match cl with
  | Field c => cond_valid c
  | Or alts =>
      bool_decide (k = "$or") &&
      forallb (λ a, bool_decide (map_Forall (λ _ c, cond_valid c = true) a)) alts
  end.

Definition filter_valid (filt : query) : bool :=
  bool_decide (map_Forall (λ k cl, clause_valid k cl = true) filt).

End Store.

(** ** Document access layer *)

Record database := {
  collections : gmap string (list document);
  next_oid : N
}.

(** The global handle [db] of the data layer: [None] when the store is not
    configured or cannot be reached. *)
Abbreviation store := (option database).

Definition collection (d : database) (name : string) : list document :=
  collections d !!! name.

(** A returned record carries its identifier as a string. *)
Definition str_id (d : document) : document :=
  match d !! "_id" with
  | Some (BOid n) => <["_id" := BStr (pretty n)]> d
  | _ => d
  end.

Section Access.
Context `{!Externals}.

(** Modelled from the spec: [get_documents] of the data-layer module,
    which is not among the sources.  The read returns up to [limit]
    records of the collection that match the filter, in storage order,
    each with its identifier as a string; it returns the empty sequence
    when nothing matches, and fails with a storage error when the store
    cannot be reached or rejects the query. *)
Definition get_documents (db : store) (collection_name : string)
    (filter_dict : query) (limit : Z) : result (list document) :=
  match db with
  | None => Err StorageError
  | Some d =>
      if filter_valid filter_dict then
        Ok (str_id <$> take (Z.to_nat limit)
              (List.filter (matches filter_dict) (collection d collection_name)))
      else Err StorageError
  end.

(** Modelled from the spec: [create_document] of the data-layer module,
    which is not among the sources.  The write persists one record, the
    validated shape with a newly assigned identifier, and returns that
    identifier as a string; it fails with a storage error when the store
    cannot be reached. *)
Definition create_document (db : store) (collection_name : string)
    (data : document) : store * result string :=
  match db with
  | None => (None, Err StorageError)
  | Some d =>
      let oid := next_oid d in
      let doc := <["_id" := BOid oid]> data in
      (Some {| collections :=
                 <[collection_name := (collection d collection_name ++ [doc])%list]>
                   (collections d);
               next_oid := N.succ oid |},
       Ok (pretty oid))
  end.

End Access.

(** ** Schemas ([schemas.py]) *)

(** A parsed JSON request body is a dictionary of JSON values. *)
#[warnings="-register-all"] Inductive json :=
| JNull
| JBool (b : bool)
| JNum (x : Qc)
| JStr (s : string)
| JArr (l : list json)
| JObj (fields : list (string * json)).

(** Field validators of pydantic: [str], [Optional[str]], [List[str]]. *)
Definition as_str (j : json) : option string :=
  match j with JStr s => Some s | _ => None end.

Definition as_opt_str (j : json) : option (option string) :=
  match j with
  | JNull => Some None
  | JStr s => Some (Some s)
  | _ => None
  end.

Definition as_str_list (j : json) : option (list string) :=
  match j with
  | JArr l => mapM as_str l
  | _ => None
  end.

(** A field declared without a default ([...] or a bare annotation). *)
Definition required {A} (name : string) (validate : json → option A)
    (body : gmap string json) : result A :=
  match body !! name with
  | Some j =>
      match validate j with
      | Some a => Ok a
      | None => Err (RequestValidationError name)
      end
  | None => Err (RequestValidationError name)
  end.

(** A field declared with a default ([None] or [default_factory=list]). *)
Definition defaulted {A} (name : string) (default : A) (validate : json → option A)
    (body : gmap string json) : result A :=
  match body !! name with
  | Some j =>
      match validate j with
      | Some a => Ok a
      | None => Err (RequestValidationError name)
      end
  | None => Ok default
  end.

Definition dump_opt (o : option string) : bson := from_option BStr BNull o.

Module Doctor.
Record t := {
  name : string;
  crm : option string;
  photo_url : option string;
  specialties : list string;
  pathologies : list string;
  consultation_types : list string;
  price_from : option Qc;
  states : list string;
  cities : list string;
  clinic_name : option string;
  languages : list string;
  education : option string;
  bio : option string;
  whatsapp : option string;
  email : option string
}.

Definition model_dump (m : t) : document :=
  <["name" := BStr (name m)]> $
  <["crm" := dump_opt (crm m)]> $
  <["photo_url" := dump_opt (photo_url m)]> $
  <["specialties" := BStrs (specialties m)]> $
  <["pathologies" := BStrs (pathologies m)]> $
  <["consultation_types" := BStrs (consultation_types m)]> $
  <["price_from" := from_option BNum BNull (price_from m)]> $
  <["states" := BStrs (states m)]> $
  <["cities" := BStrs (cities m)]> $
  <["clinic_name" := dump_opt (clinic_name m)]> $
  <["languages" := BStrs (languages m)]> $
  <["education" := dump_opt (education m)]> $
  <["bio" := dump_opt (bio m)]> $
  <["whatsapp" := dump_opt (whatsapp m)]> $
  <["email" := dump_opt (email m)]> ∅.
End Doctor.

Module Article.
Record t := {
  title : string;
  slug : string;
  summary : option string;
  content : option string;
  category : option string;
  tags : list string;
  cover_image : option string;
  author : option string;
  published_at : option Z;
  related_slugs : list string
}.

Definition model_dump (m : t) : document :=
  <["title" := BStr (title m)]> $
  <["slug" := BStr (slug m)]> $
  <["summary" := dump_opt (summary m)]> $
  <["content" := dump_opt (content m)]> $
  <["category" := dump_opt (category m)]> $
  <["tags" := BStrs (tags m)]> $
  <["cover_image" := dump_opt (cover_image m)]> $
  <["author" := dump_opt (author m)]> $
  <["published_at" := from_option BDate BNull (published_at m)]> $
  <["related_slugs" := BStrs (related_slugs m)]> ∅.
End Article.

Module AppointmentRequest.
Record t := {
  patient_name : string;
  email : string;
  phone : string;
  pathology : string;
  consultation_type : option string;
  preferred_dates : list string;
  state : option string;
  city : option string;
  doctor_id : option string;
  notes : option string
}.

Definition model_fields : gset string :=
  list_to_set ["patient_name"; "email"; "phone"; "pathology";
               "consultation_type"; "preferred_dates"; "state"; "city";
               "doctor_id"; "notes"].

Definition model_dump (m : t) : document :=
  <["patient_name" := BStr (patient_name m)]> $
  <["email" := BStr (email m)]> $
  <["phone" := BStr (phone m)]> $
  <["pathology" := BStr (pathology m)]> $
  <["consultation_type" := dump_opt (consultation_type m)]> $
  <["preferred_dates" := BStrs (preferred_dates m)]> $
  <["state" := dump_opt (state m)]> $
  <["city" := dump_opt (city m)]> $
  <["doctor_id" := dump_opt (doctor_id m)]> $
  <["notes" := dump_opt (notes m)]> ∅.

(** Validation reads the declared fields of the body and nothing else:
    the model carries no [extra] setting, and pydantic's default is to
    ignore keys that are not declared.  The first failing field, in
    declaration order, is the one reported. *)
Definition model_validate `{!Externals} (body : gmap string json) : result t :=
  patient_name ← required "patient_name" as_str body;
  email ← required "email" (λ j, as_str j ≫= EmailStr) body;
  phone ← required "phone" as_str body;
  pathology ← required "pathology" as_str body;
  consultation_type ← defaulted "consultation_type" None as_opt_str body;
  preferred_dates ← defaulted "preferred_dates" [] as_str_list body;
  state ← defaulted "state" None as_opt_str body;
  city ← defaulted "city" None as_opt_str body;
  doctor_id ← defaulted "doctor_id" None as_opt_str body;
  notes ← defaulted "notes" None as_opt_str body;
  Ok {| patient_name := patient_name; email := email; phone := phone;
        pathology := pathology; consultation_type := consultation_type;
        preferred_dates := preferred_dates; state := state; city := city;
        doctor_id := doctor_id; notes := notes |}.
End AppointmentRequest.

Module NewsletterSubscriber.
Record t := {
  email : string;
  interests : list string
}.

Definition model_fields : gset string := list_to_set ["email"; "interests"].

Definition model_dump (m : t) : document :=
  <["email" := BStr (email m)]> $
  <["interests" := BStrs (interests m)]> ∅.

Definition model_validate `{!Externals} (body : gmap string json) : result t :=
  email ← required "email" (λ j, as_str j ≫= EmailStr) body;
  interests ← defaulted "interests" [] as_str_list body;
  Ok {| email := email; interests := interests |}.
End NewsletterSubscriber.

(** ** Handlers ([main.py]) *)

(** [Query(default, ge=.., le=..)] on an integer parameter: an absent
    parameter takes the default, a supplied one is checked against the
    bounds and refused when outside them. *)
Definition Query_int (default ge le : Z) (name : string) (raw : option Z) : result Z :=
  match raw with
  | None => Ok default
  | Some v =>
      if bool_decide (ge ≤ v ≤ le)%Z then Ok v
      else Err (RequestValidationError name)
  end.

(** [Query(None, ge=..)] on an optional number. *)
Definition Query_float (ge : Qc) (name : string) (raw : option Qc) : result (option Qc) :=
  match raw with
  | None => Ok None
  | Some v =>
      if bool_decide (ge ≤ v)%Qc then Ok (Some v)
      else Err (RequestValidationError name)
  end.

(** [if p: ...] on an [Optional[str]]: the branch is taken when [p] is
    neither [None] nor the empty string. *)
Definition if_truthy {A} (p : option string) (body : string → A → A) (a : A) : A :=
  match p with
  | Some (String c s) => body (String c s) a
  | _ => a
  end.

(** Lines 88-98 of [list_articles]. *)
Definition articles_filt (q category tag : option string) : query :=
  let filt := ∅ in
  let filt := if_truthy q (λ q,
    <["$or" := Or [ {["title" := Regex q "i"]}; {["summary" := Regex q "i"]} ]]>) filt in
  let filt := if_truthy category (λ category,
    <["category" := Field (Eq category)]>) filt in
  let filt := if_truthy tag (λ tag,
    <["tags" := Field (In [tag])]>) filt in
  filt.

(** Lines 120-132 of [list_doctors]. *)
Definition doctors_filt (specialty state city pathology consultation_type : option string)
    (price_max : option Qc) : query :=
  let filt := ∅ in
  let filt := if_truthy specialty (λ specialty,
    <["specialties" := Field (In [specialty])]>) filt in
  let filt := if_truthy state (λ state,
    <["states" := Field (In [state])]>) filt in
  let filt := if_truthy city (λ city,
    <["cities" := Field (In [city])]>) filt in
  let filt := if_truthy pathology (λ pathology,
    <["pathologies" := Field (In [pathology])]>) filt in
  let filt := if_truthy consultation_type (λ consultation_type,
    <["consultation_types" := Field (In [consultation_type])]>) filt in
  let filt := match price_max with
              | Some price_max => <["price_from" := Field (Lte price_max)]> filt
              | None => filt
              end in
  filt.

(** The body of a successful write. *)
Module Created.
Record t := { status : string; id : string }.
End Created.

Definition static_paths : list string :=
  ["/"; "/articles"; "/about"; "/press"; "/contact"; "/privacy"; "/terms"; "/lgpd"].

Definition newline : string := String "010"%char "".
Definition dquote : string := String "034"%char "".

(** ["sep".join(lines)] *)
Fixpoint join (sep : string) (lines : list string) : string :=
  match lines with
  | [] => ""
  | [l] => l
  | l :: ls => l +:+ sep +:+ join sep ls
  end.

(** Truth value of a document field in [if slug:]. *)
Definition py_truthy (v : bson) : bool :=
  match v with
  | BNull => false
  | BStr s => bool_decide (s ≠ "")
  | BNum x => bool_decide (x ≠ 0%Qc)
  | BStrs l => bool_decide (l ≠ [])
  | BDate _ | BOid _ => true
  end.

Section Handlers.
Context `{!Externals}.

Definition list_articles (db : store) (q category tag : option string)
    (limit : option Z) : result (list document) :=
  limit ← Query_int 20 1 100 "limit" limit;
  get_documents db "article" (articles_filt q category tag) limit.

Definition get_article (db : store) (slug : string) : result document :=
  docs ← get_documents db "article" {["slug" := Field (Eq slug)]} 1;
  match docs with
  | [] => Err (HTTPException 404 "Article not found")
  | doc :: _ => Ok doc
  end.

Definition list_doctors (db : store)
    (specialty state city pathology consultation_type : option string)
    (price_max : option Qc) (limit : option Z) : result (list document) :=
  price_max ← Query_float 0 "price_max" price_max;
  limit ← Query_int 50 1 100 "limit" limit;
  get_documents db "doctor"
    (doctors_filt specialty state city pathology consultation_type price_max) limit.

(** The framework validates the body against the model of the parameter
    before it calls the handler. *)
Definition create_appointment (db : store) (body : gmap string json)
    : store * result Created.t :=
  match AppointmentRequest.model_validate body with
  | Err e => (db, Err e)
  | Ok req =>
      let '(db', r) := create_document db "appointmentrequest"
                         (AppointmentRequest.model_dump req) in
      (db', doc_id ← r; Ok {| Created.status := "ok"; Created.id := doc_id |})
  end.

Definition subscribe_newsletter (db : store) (body : gmap string json)
    : store * result Created.t :=
  match NewsletterSubscriber.model_validate body with
  | Err e => (db, Err e)
  | Ok sub =>
      let '(db', r) := create_document db "newslettersubscriber"
                         (NewsletterSubscriber.model_dump sub) in
      (db', doc_id ← r; Ok {| Created.status := "ok"; Created.id := doc_id |})
  end.

(** [f"{slug}"]: a string is inserted as it is. *)
Definition format_value (v : bson) : string :=
  match v with
  | BStr s => s
  | _ => py_str v
  end.

Definition url_line (loc : string) : string :=
  "  <url><loc>" +:+ loc +:+ "</loc></url>".

(** One turn of the loop over the articles. *)
Definition article_urls (base_frontend : string) (a : document) : list string :=
  match a !! "slug" with
  | Some slug =>
      if py_truthy slug
      then [url_line (base_frontend +:+ "/articles/" +:+ format_value slug)]
      else []
  | None => []
  end.

(** The list [urls] when the handler reaches line 168. *)
Definition sitemap_urls (db : store) (base_frontend : string) : list string :=
  let urls := (λ p, url_line (base_frontend +:+ p)) <$> static_paths in
  match get_documents db "article" ∅ 500 with
  | Ok articles => urls ++ (articles ≫= article_urls base_frontend)
  | Err _ => urls
  end%list.

Definition sitemap (db : store) (FRONTEND_URL : option string) : string :=
  let base_frontend := default "https://example.com" FRONTEND_URL in
  join newline
    ([ "<?xml version=" +:+ dquote +:+ "1.0" +:+ dquote +:+ " encoding="
         +:+ dquote +:+ "UTF-8" +:+ dquote +:+ "?>";
       "<urlset xmlns=" +:+ dquote
         +:+ "http://www.sitemaps.org/schemas/sitemap/0.9" +:+ dquote +:+ ">" ]
     ++ sitemap_urls db base_frontend
     ++ [ "</urlset>" ])%list.

End Handlers.

(** ** Text search *)

(** ASCII lower-casing of one character. *)
Definition lower (c : ascii) : ascii :=
  let n := nat_of_ascii c in
  if bool_decide (65 ≤ n ≤ 90)%nat then ascii_of_nat (n + 32) else c.

Fixpoint lower_string (s : string) : string :=
  match s with
  | "" => ""
  | String c s' => String (lower c) (lower_string s')
  end.

(** [s] begins with [q]. *)
Fixpoint starts_with (q s : string) : bool :=
  match q, s with
  | "", _ => true
  | String a q', String b s' => if Ascii.eqb a b then starts_with q' s' else false
  | String _ _, "" => false
  end.

(** [s] contains [q] as a literal substring. *)
Fixpoint contains (q s : string) : bool :=
  if starts_with q s then true
  else match s with
       | "" => false
       | String _ s' => contains q s'
       end.

(** [s] contains [q] as a literal substring, letters compared without
    case. *)
Definition icontains (q s : string) : bool :=
  contains (lower_string q) (lower_string s).

(** [x] occurs in [s]. *)
Definition occurs_in (x s : string) : Prop :=
  ∃ pre post, s = pre +:+ x +:+ post.

(** ** A reference instance of the libraries

    A regular-expression engine for the patterns whose characters are
    ordinary characters or the wildcard [.], with the option ["i"] or none;
    it refuses every other pattern.  An address check that asks for one
    [@] between two non-empty parts and a dot inside the domain.  Values
    that are not strings are rendered as the empty string; the documents of
    the four schemas never put one in a slug. *)
Inductive atom :=
| Lit (c : ascii)
| AnyChar.

Definition metachars : list ascii :=
  ["\"; "^"; "$"; "."; "["; "]"; "|"; "("; ")"; "?"; "*"; "+"; "{"; "}"]%char.

(** No character of [p] has a meaning in a pattern. *)
Fixpoint plain (p : string) : bool :=
  match p with
  | "" => true
  | String c p' => bool_decide (c ∉ metachars) && plain p'
  end.

Fixpoint parse_atoms (p : string) : option (list atom) :=
  match p with
  | "" => Some []
  | String c p' =>
      if bool_decide (c = "."%char) then (AnyChar ::.) <$> parse_atoms p'
      else if bool_decide (c ∈ metachars) then None
      else (Lit c ::.) <$> parse_atoms p'
  end.

Definition atom_accepts (ci : bool) (a : atom) (c : ascii) : bool :=
  match a with
  | Lit x => if ci then bool_decide (lower x = lower c) else bool_decide (x = c)
  | AnyChar => bool_decide (c ≠ "010"%char)
  end.

Fixpoint match_here (ci : bool) (atoms : list atom) (s : string) : bool :=
  match atoms, s with
  | [], _ => true
  | a :: atoms', String c s' => atom_accepts ci a c && match_here ci atoms' s'
  | _ :: _, "" => false
  end.

Fixpoint search (ci : bool) (atoms : list atom) (s : string) : bool :=
  match_here ci atoms s ||
  match s with
  | "" => false
  | String _ s' => search ci atoms s'
  end.

Definition fragment_compile (pattern options : string) : option (string → bool) :=
  atoms ← parse_atoms pattern;
  match options with
  | "" => Some (search false atoms)
  | "i" => Some (search true atoms)
  | _ => None
  end.

Fixpoint count_char (c : ascii) (s : string) : nat :=
  match s with
  | "" => 0
  | String x s' => (if bool_decide (x = c) then 1 else 0) + count_char c s'
  end.

Fixpoint after_at (s : string) : string :=
  match s with
  | "" => ""
  | String c s' => if bool_decide (c = "@"%char) then s' else after_at s'
  end.

Definition simple_address (s : string) : option string :=
  let domain := after_at s in
  if bool_decide (count_char "@" s = 1)%nat
     && negb (starts_with "@" s)
     && bool_decide (1 ≤ count_char "." domain)%nat
     && negb (starts_with "." domain)
  then Some s else None.

Definition reference : Externals := {|
  regex_compile := fragment_compile;
  EmailStr := simple_address;
  py_str := λ _, ""
|}.

(** ** The filter semantics of the spec, on records

    [stored oid data] is a record in the store and [returned oid data] the
    same record as a read presents it. *)
Definition stored (oid : N) (data : document) : document :=
  <["_id" := BOid oid]> data.

Definition returned (oid : N) (data : document) : document :=
  <["_id" := BStr (pretty oid)]> data.

(** A supplied parameter constrains the record, an absent one does not. *)
Definition supplied {A} (p : option A) (pred : A → bool) : bool :=
  from_option pred true p.

(** Articles: [q] is a case-insensitive substring of the title or of the
    summary, [category] is matched exactly, [tag] is a member of the tags. *)
Definition article_selected (q category tag : option string) (a : Article.t) : bool :=
  supplied q (λ q, icontains q (Article.title a)
                   || from_option (icontains q) false (Article.summary a)) &&
  supplied category (λ c, bool_decide (Article.category a = Some c)) &&
  supplied tag (λ t, bool_decide (t ∈ Article.tags a)).

(** Doctors: each string parameter is a member of its list field, and
    [price_from] is present and at most [price_max]. *)
Definition doctor_selected
    (specialty state city pathology consultation_type : option string)
    (price_max : option Qc) (m : Doctor.t) : bool :=
  supplied specialty (λ s, bool_decide (s ∈ Doctor.specialties m)) &&
  supplied state (λ s, bool_decide (s ∈ Doctor.states m)) &&
  supplied city (λ s, bool_decide (s ∈ Doctor.cities m)) &&
  supplied pathology (λ s, bool_decide (s ∈ Doctor.pathologies m)) &&
  supplied consultation_type (λ s, bool_decide (s ∈ Doctor.consultation_types m)) &&
  supplied price_max (λ x, match Doctor.price_from m with
                           | Some p => bool_decide (p ≤ x)%Qc
                           | None => false
                           end).

Definition stored_article (r : N * Article.t) : document :=
  stored r.1 (Article.model_dump r.2).
Definition returned_article (r : N * Article.t) : document :=
  returned r.1 (Article.model_dump r.2).
Definition stored_doctor (r : N * Doctor.t) : document :=
  stored r.1 (Doctor.model_dump r.2).
Definition returned_doctor (r : N * Doctor.t) : document :=
  returned r.1 (Doctor.model_dump r.2).

(** An empty string counts as an absent parameter. *)
Definition effective (p : option string) : option string :=
  match p with
  | Some "" => None
  | _ => p
  end.

(** The store's case-insensitive search for [q]: [None] when [q] is absent
    or empty (and when the store refuses the pattern), otherwise the
    predicate that says whether the search finds something in a text. *)
Definition store_search `{!Externals} (q : option string) : option (string → bool) :=
  effective q ≫= λ s, regex_compile s "i".

(** The selection of articles with the text search left to the store:
    [found], when there is one, has to find something in the title or in
    the summary. *)
Definition article_selected_with (found : option (string → bool))
    (category tag : option string) (a : Article.t) : bool :=
  supplied found (λ m, m (Article.title a)
                       || from_option m false (Article.summary a)) &&
  supplied category (λ c, bool_decide (Article.category a = Some c)) &&
  supplied tag (λ t, bool_decide (t ∈ Article.tags a)).

(** The engine finds a pattern of ordinary characters where the pattern
    occurs literally, case aside. *)
Definition literal_engine `{!Externals} : Prop :=
  ∀ p, plain p = true →
    ∃ m, regex_compile p "i" = Some m ∧ ∀ s, m s = icontains p s.

(** The sitemap line of a stored article record. *)
Definition record_urls (base_frontend : string) (r : N * Article.t) : list string :=
  if bool_decide (Article.slug r.2 ≠ "")
  then [url_line (base_frontend +:+ "/articles/" +:+ Article.slug r.2)]
  else [].

(** ** Sample data *)

Definition brl (n : Z) : Qc := Q2Qc (inject_Z n).

Definition article (title slug : string) (summary category : option string)
    (tags : list string) : Article.t :=
  {| Article.title := title; Article.slug := slug; Article.summary := summary;
     Article.content := None; Article.category := category; Article.tags := tags;
     Article.cover_image := None; Article.author := None;
     Article.published_at := None; Article.related_slugs := [] |}.

Definition doctor (name : string) (specialties states : list string)
    (price_from : option Qc) : Doctor.t :=
  {| Doctor.name := name; Doctor.crm := None; Doctor.photo_url := None;
     Doctor.specialties := specialties; Doctor.pathologies := [];
     Doctor.consultation_types := []; Doctor.price_from := price_from;
     Doctor.states := states; Doctor.cities := []; Doctor.clinic_name := None;
     Doctor.languages := []; Doctor.education := None; Doctor.bio := None;
     Doctor.whatsapp := None; Doctor.email := None |}.

Definition sample_articles : list (N * Article.t) :=
  [ (1%N, article "Cannabis basics" "basics" (Some "An overview") (Some "Research")
            ["cbd"]);
    (2%N, article "abc" "abc" None (Some "Regulation") []) ].

Definition sample_doctors : list (N * Doctor.t) :=
  [ (3%N, doctor "Ana" ["neurology"] ["SP"] (Some (brl 150)));
    (4%N, doctor "Bia" ["neurology"] ["SP"] None);
    (5%N, doctor "Caio" ["psychiatry"] ["SP"; "RJ"] (Some (brl 300))) ].

Definition sample_db : database :=
  {| collections := {[ "article" := stored_article <$> sample_articles;
                       "doctor" := stored_doctor <$> sample_doctors ]};
     next_oid := 10 |}.

(** A store with 501 articles: 500 with the slug ["early"], then one with
    the slug ["late"]. *)
Definition crowded_articles : list (N * Article.t) :=
  ((λ i, (N.of_nat i, article "Early" "early" None None [])) <$> seq 0 500)
  ++ [ (500%N, article "Late" "late" None None []) ].

Definition crowded_db : database :=
  {| collections := {[ "article" := stored_article <$> crowded_articles ]};
     next_oid := 501 |}.

(** A newsletter body with a field that the schema does not declare, and
    two bodies that fail validation. *)
Definition body_with_extra : gmap string json :=
  {[ "email" := JStr "ana@example.com"; "admin" := JBool true ]}.

Definition body_without_name : gmap string json :=
  {[ "email" := JStr "ana@example.com"; "phone" := JStr "11 5555";
     "pathology" := JStr "epilepsy" ]}.

Definition body_bad_email : gmap string json :=
  {[ "email" := JStr "ana.example.com" ]}.

(** ** Diagnostics, schema discovery and robots ([main.py]) *)

Module Status.
Record t := {
  backend : string;
  database : string;
  database_url : string;
  database_name : string;
  connection_status : string;
  collections : list string
}.
End Status.

(** [test_database]: [env] is the process environment, and
    [list_collection_names] the driver call, which returns the names or
    raises.  The message of the exception is the list of its characters,
    each given as the string that encodes it, so that [str(e)[:100]] is the
    first 100 of them.  [os.getenv] does not raise, so the outer handler of
    the source has nothing to catch. *)
Definition test_database (env : gmap string string) (db : store)
    (list_collection_names : database → list string + list string) : Status.t :=
  match db with
  | Some d =>
      let url := if_truthy (env !! "DATABASE_URL") (λ _ _, "✅ Set") "❌ Not Set" in
      let name := if_truthy (env !! "DATABASE_NAME") (λ v _, v) "❌ Not Set" in
      match list_collection_names d with
      | inr names =>
          {| Status.backend := "✅ Running";
             Status.database := "✅ Connected & Working";
             Status.database_url := url;
             Status.database_name := name;
             Status.connection_status := "Connected";
             Status.collections := names |}
      | inl e =>
          {| Status.backend := "✅ Running";
             Status.database := "⚠️ Connected but error: " +:+ join "" (take 100 e);
             Status.database_url := url;
             Status.database_name := name;
             Status.connection_status := "Not Connected";
             Status.collections := [] |}
      end
  | None =>
      {| Status.backend := "✅ Running";
         Status.database := "❌ db not initialized";
         Status.database_url := "❌ Not Set";
         Status.database_name := "❌ Not Set";
         Status.connection_status := "Not Connected";
         Status.collections := [] |}
  end.

(** The annotations of the fields of [schemas.py]. *)
Inductive annotation :=
| TStr
| TFloat
| THttpUrl
| TEmailStr
| TDatetime
| TOptional (a : annotation)
| TList (a : annotation).

Definition SCHEMA_REGISTRY : list (string * list (string * annotation)) :=
  [ ("Doctor",
     [ ("name", TStr); ("crm", TOptional TStr); ("photo_url", TOptional THttpUrl);
       ("specialties", TList TStr); ("pathologies", TList TStr);
       ("consultation_types", TList TStr); ("price_from", TOptional TFloat);
       ("states", TList TStr); ("cities", TList TStr);
       ("clinic_name", TOptional TStr); ("languages", TList TStr);
       ("education", TOptional TStr); ("bio", TOptional TStr);
       ("whatsapp", TOptional TStr); ("email", TOptional TEmailStr) ]);
    ("Article",
     [ ("title", TStr); ("slug", TStr); ("summary", TOptional TStr);
       ("content", TOptional TStr); ("category", TOptional TStr);
       ("tags", TList TStr); ("cover_image", TOptional THttpUrl);
       ("author", TOptional TStr); ("published_at", TOptional TDatetime);
       ("related_slugs", TList TStr) ]);
    ("AppointmentRequest",
     [ ("patient_name", TStr); ("email", TEmailStr); ("phone", TStr);
       ("pathology", TStr); ("consultation_type", TOptional TStr);
       ("preferred_dates", TList TStr); ("state", TOptional TStr);
       ("city", TOptional TStr); ("doctor_id", TOptional TStr);
       ("notes", TOptional TStr) ]);
    ("NewsletterSubscriber",
     [ ("email", TEmailStr); ("interests", TList TStr) ]) ].

Module SchemaField.
Record t := { name : string; type : string }.
End SchemaField.

Module CollectionSchema.
Record t := { collection : string; fields : list SchemaField.t }.
End CollectionSchema.

(** [get_schema]; [annotation_str] is Python's [str] of an annotation. *)
Definition get_schema (annotation_str : annotation → string)
    : list CollectionSchema.t :=
  (λ entry,
     {| CollectionSchema.collection := lower_string entry.1;
        CollectionSchema.fields :=
          (λ kv, {| SchemaField.name := kv.1;
                    SchemaField.type := annotation_str kv.2 |}) <$> entry.2 |})
  <$> SCHEMA_REGISTRY.


(** ** Request bodies of validated records

    The JSON object that carries the fields of a record, as a client
    submits it. *)
Definition json_opt (o : option string) : json := from_option JStr JNull o.

Definition appointment_body (m : AppointmentRequest.t) : gmap string json :=
  <["patient_name" := JStr (AppointmentRequest.patient_name m)]> $
  <["email" := JStr (AppointmentRequest.email m)]> $
  <["phone" := JStr (AppointmentRequest.phone m)]> $
  <["pathology" := JStr (AppointmentRequest.pathology m)]> $
  <["consultation_type" := json_opt (AppointmentRequest.consultation_type m)]> $
  <["preferred_dates" := JArr (JStr <$> AppointmentRequest.preferred_dates m)]> $
  <["state" := json_opt (AppointmentRequest.state m)]> $
  <["city" := json_opt (AppointmentRequest.city m)]> $
  <["doctor_id" := json_opt (AppointmentRequest.doctor_id m)]> $
  <["notes" := json_opt (AppointmentRequest.notes m)]> ∅.

Definition newsletter_body (m : NewsletterSubscriber.t) : gmap string json :=
  <["email" := JStr (NewsletterSubscriber.email m)]> $
  <["interests" := JArr (JStr <$> NewsletterSubscriber.interests m)]> ∅.

(** The parameters that the boundary lets through. *)
Definition limit_ok (limit : option Z) : Prop :=
  from_option (λ l, 1 ≤ l ≤ 100)%Z True limit.

Definition price_max_ok (price_max : option Qc) : Prop :=
  from_option (λ x, 0 ≤ x)%Qc True price_max.

(** The field value [v] holds [s]: it is the string [s], or a list with
    [s] among its elements. *)
Definition holds_value (v : option bson) (s : string) : Prop :=
  v = Some (BStr s) ∨ ∃ l, v = Some (BStrs l) ∧ s ∈ l.

(** Doctors of whom one consults for free. *)
Definition free_doctors : list (N * Doctor.t) :=
  [ (1%N, doctor "Davi" ["neurology"] ["SP"] (Some (brl 0)));
    (2%N, doctor "Eva" ["neurology"] ["SP"] (Some (brl 150)));
    (3%N, doctor "Fabio" ["neurology"] ["SP"] None) ].

Definition free_db : database :=
  {| collections := {[ "doctor" := stored_doctor <$> free_doctors ]};
     next_oid := 4 |}.

(** Two stored articles with the same slug. *)
Definition twin_articles : list (N * Article.t) :=
  [ (1%N, article "First" "other" None None []);
    (2%N, article "Second" "twin" None None []);
    (3%N, article "Third" "twin" None None []) ].

Definition twin_db : database :=
  {| collections := {[ "article" := stored_article <$> twin_articles ]};
     next_oid := 4 |}.

(** How a field of a request body gives the value of a field of the
    validated record: an [Optional[str]] field, a [List[str]] field and an
    [EmailStr] field. *)
Definition optional_field (v : option json) (o : option string) : Prop :=
  (v = None ∧ o = None) ∨ (v = Some JNull ∧ o = None)
  ∨ ∃ s, v = Some (JStr s) ∧ o = Some s.

Definition list_field (v : option json) (l : list string) : Prop :=
  (v = None ∧ l = []) ∨ v = Some (JArr (JStr <$> l)).

Definition email_field `{!Externals} (v : option json) (e : string) : Prop :=
  ∃ s, v = Some (JStr s) ∧ EmailStr s = Some e.

(** A validated appointment request and a subscriber. *)
Definition sample_request : AppointmentRequest.t :=
  {| AppointmentRequest.patient_name := "Ana";
     AppointmentRequest.email := "ana@example.com";
     AppointmentRequest.phone := "11 5555";
     AppointmentRequest.pathology := "epilepsy";
     AppointmentRequest.consultation_type := Some "telemedicine";
     AppointmentRequest.preferred_dates := ["2025-01-10"; "2025-01-12"];
     AppointmentRequest.state := Some "SP";
     AppointmentRequest.city := None;
     AppointmentRequest.doctor_id := None;
     AppointmentRequest.notes := None |}.

Definition sample_subscriber : NewsletterSubscriber.t :=
  {| NewsletterSubscriber.email := "bia@example.com";
     NewsletterSubscriber.interests := ["Research"] |}.

(** * Properties *)

(** ** Evaluation of filters *)

Section Matching.
Context `{!Externals}.

Lemma matches_empty (d : document) : matches ∅ d = true.
Proof. unfold matches. apply bool_decide_eq_true, map_Forall_empty. Qed.

Lemma matches_insert (filt : query) k cl d :
  filt !! k = None →
  matches (<[k:=cl]> filt) d = clause_holds k cl d && matches filt d.
Proof.
  intros Hk. unfold matches. apply Bool.eq_iff_eq_true.
  rewrite andb_true_iff, !bool_decide_eq_true.
  by rewrite map_Forall_insert.
Qed.

Lemma filter_valid_empty : filter_valid ∅ = true.
Proof. unfold filter_valid. apply bool_decide_eq_true, map_Forall_empty. Qed.

Lemma filter_valid_insert (filt : query) k cl :
  filt !! k = None →
  filter_valid (<[k:=cl]> filt) = clause_valid k cl && filter_valid filt.
Proof.
  intros Hk. unfold filter_valid. apply Bool.eq_iff_eq_true.
  rewrite andb_true_iff, !bool_decide_eq_true.
  by rewrite map_Forall_insert.
Qed.

Lemma conds_hold_singleton k c (d : document) :
  conds_hold {[k := c]} d = cond_holds c (d !! k).
Proof.
  unfold conds_hold. apply Bool.eq_iff_eq_true.
  by rewrite bool_decide_eq_true, map_Forall_singleton.
Qed.

(** The conditional insertions of the handlers. *)
Lemma lookup_if_truthy p k (mk : string → clause) (filt : query) k' :
  k ≠ k' → if_truthy p (λ s, <[k := mk s]>) filt !! k' = filt !! k'.
Proof.
  intros Hne. destruct p as [[|c s]|]; simpl; try done.
  by rewrite lookup_insert_ne.
Qed.

Lemma matches_if_truthy p k (mk : string → clause) (filt : query) d :
  filt !! k = None →
  matches (if_truthy p (λ s, <[k := mk s]>) filt) d
  = supplied (effective p) (λ s, clause_holds k (mk s) d) && matches filt d.
Proof.
  intros Hk. destruct p as [[|c s]|]; simpl; try done.
  by apply matches_insert.
Qed.

Lemma filter_valid_if_truthy p k (mk : string → clause) (filt : query) :
  filt !! k = None →
  filter_valid (if_truthy p (λ s, <[k := mk s]>) filt)
  = supplied (effective p) (λ s, clause_valid k (mk s)) && filter_valid filt.
Proof.
  intros Hk. destruct p as [[|c s]|]; simpl; try done.
  by apply filter_valid_insert.
Qed.

Lemma In_singleton_holds (t : string) (l : list string) :
  existsb (λ x, bool_decide (x ∈ [t])) l = bool_decide (t ∈ l).
Proof.
  apply Bool.eq_iff_eq_true. rewrite existsb_exists, bool_decide_eq_true. split.
  - intros (x & Hx & Hin). apply bool_decide_eq_true, list_elem_of_singleton in Hin.
    subst. by apply list_elem_of_In.
  - intros Hin. exists t. split; [by apply list_elem_of_In|].
    apply bool_decide_eq_true. set_solver.
Qed.

Lemma str_id_stored oid data : str_id (stored oid data) = returned oid data.
Proof.
  unfold str_id, stored, returned.
  by rewrite lookup_insert_eq, insert_insert_eq.
Qed.

Lemma filter_fmap {A B} (f : A → B) (P : B → bool) (l : list A) :
  List.filter P (f <$> l) = f <$> List.filter (λ x, P (f x)) l.
Proof.
  induction l as [|x l IH]; [done|].
  cbn [fmap list_fmap List.filter] in *.
  destruct (P (f x)); cbn [fmap list_fmap]; by rewrite IH.
Qed.

Lemma filter_ext_bool {A} (P Q : A → bool) (l : list A) :
  (∀ x, P x = Q x) → List.filter P l = List.filter Q l.
Proof. intros HPQ. induction l as [|x l IH]; [done|]. simpl. by rewrite HPQ, IH. Qed.

(** A read of a collection of records whose filter is accepted. *)
Lemma get_documents_records {A} (store_as return_as : A → document)
    (d : database) name (filt : query) limit (recs : list A) (P : A → bool) :
  collection d name = store_as <$> recs →
  (∀ r, str_id (store_as r) = return_as r) →
  filter_valid filt = true →
  (∀ r, matches filt (store_as r) = P r) →
  get_documents (Some d) name filt limit
  = Ok (return_as <$> take (Z.to_nat limit) (List.filter P recs)).
Proof.
  intros Hcoll Hid Hv HP. unfold get_documents. rewrite Hv, Hcoll.
  rewrite filter_fmap, <-fmap_take, <-list_fmap_compose. f_equal.
  rewrite (filter_ext_bool _ P) by done.
  apply list_fmap_ext. intros _ r _. apply Hid.
Qed.

End Matching.

(** ** List endpoints *)

Section ListEndpoints.
Context `{!Externals}.

Lemma effective_Some p s : effective p = Some s → p = Some s.
Proof. by destruct p as [[|c p]|]. Qed.

Lemma membership_holds (s : string) (l : list string) :
  cond_holds (In [s]) (Some (BStrs l)) = bool_decide (s ∈ l).
Proof. apply In_singleton_holds. Qed.

Lemma exact_holds (c : string) (o : option string) :
  cond_holds (Eq c) (Some (dump_opt o)) = bool_decide (o = Some c).
Proof.
  destruct o as [c'|]; simpl; [|done].
  apply bool_decide_ext. split; [by intros ->|by intros [= ->]].
Qed.

Lemma threshold_holds (x : Qc) (o : option Qc) :
  cond_holds (Lte x) (Some (from_option BNum BNull o))
  = match o with Some p => bool_decide (p ≤ x)%Qc | None => false end.
Proof. by destruct o. Qed.

Lemma text_holds (q : string) (r : N * Article.t) :
  literal_engine → plain q = true →
  clause_holds "$or"
    (Or [ {["title" := Regex q "i"]}; {["summary" := Regex q "i"]} ])
    (stored_article r)
  = icontains q (Article.title r.2)
    || from_option (icontains q) false (Article.summary r.2).
Proof.
  intros Hlit Hq. destruct (Hlit q Hq) as (m & Hm & Hfind).
  destruct r as [oid a]. cbn [clause_holds existsb fst snd].
  rewrite !conds_hold_singleton.
  change (stored_article (oid, a) !! "title") with (Some (BStr (Article.title a))).
  change (stored_article (oid, a) !! "summary")
    with (Some (dump_opt (Article.summary a))).
  rewrite orb_false_r. destruct (Article.summary a) as [s|]; simpl; rewrite Hm.
  - by rewrite !Hfind.
  - by rewrite Hfind.
Qed.

Lemma valid_singleton (k : string) (c : cond) :
  bool_decide (map_Forall (λ _ c, cond_valid c = true) ({[k := c]} : gmap string cond))
  = cond_valid c.
Proof.
  apply Bool.eq_iff_eq_true. by rewrite bool_decide_eq_true, map_Forall_singleton.
Qed.

Lemma articles_filt_valid (q category tag : option string) :
  (∀ s, effective q = Some s → is_Some (regex_compile s "i")) →
  filter_valid (articles_filt q category tag) = true.
Proof.
  intros Hq. unfold articles_filt.
  rewrite filter_valid_if_truthy.
  2:{ rewrite !lookup_if_truthy by done. apply lookup_empty. }
  rewrite filter_valid_if_truthy.
  2:{ rewrite !lookup_if_truthy by done. apply lookup_empty. }
  rewrite filter_valid_if_truthy by apply lookup_empty.
  rewrite (filter_valid_empty (H:=H)).
  destruct (effective tag), (effective category); simpl;
    destruct (effective q) as [pat|] eqn:Heq; simpl; try done;
    by rewrite !valid_singleton; simpl; rewrite (bool_decide_eq_true_2 _ (Hq pat eq_refl)).
Qed.

Lemma articles_filt_matches q category tag (r : N * Article.t) :
  literal_engine → from_option plain true q = true →
  matches (articles_filt q category tag) (stored_article r)
  = article_selected (effective q) (effective category) (effective tag) r.2.
Proof.
  intros Hlit Hq. unfold articles_filt, article_selected.
  rewrite matches_if_truthy
    by (rewrite !lookup_if_truthy by done; apply lookup_empty).
  rewrite matches_if_truthy
    by (rewrite !lookup_if_truthy by done; apply lookup_empty).
  rewrite matches_if_truthy by apply lookup_empty.
  rewrite (matches_empty (H:=H)), andb_true_r.
  rewrite andb_comm, (andb_comm (supplied (effective category) _)).
  f_equal; [f_equal|].
  - destruct (effective q) as [pat|] eqn:Heq; simpl; [|done].
    apply effective_Some in Heq. subst q. by apply text_holds.
  - destruct (effective category) as [c|]; simpl; [|done].
    change (stored_article r !! "category")
      with (Some (dump_opt (Article.category r.2))).
    apply exact_holds.
  - destruct (effective tag) as [t|]; simpl; [|done].
    change (stored_article r !! "tags") with (Some (BStrs (Article.tags r.2))).
    apply membership_holds.
Qed.

Lemma doctors_filt_valid specialty state city pathology consultation_type price_max :
  filter_valid
    (doctors_filt specialty state city pathology consultation_type price_max) = true.
Proof.
  unfold doctors_filt.
  assert (∀ filt : query, filt !! "price_from" = None → filter_valid filt = true →
            filter_valid match price_max with
                         | Some price_max => <["price_from" := Field (Lte price_max)]> filt
                         | None => filt
                         end = true) as Hprice.
  { intros filt Hk Hv. destruct price_max; [|done].
    by rewrite filter_valid_insert, Hv. }
  apply Hprice; [by rewrite !lookup_if_truthy, lookup_empty|].
  repeat (rewrite filter_valid_if_truthy
            by (rewrite ?lookup_if_truthy by done; apply lookup_empty)).
  rewrite (filter_valid_empty (H:=H)).
  by destruct (effective specialty), (effective state), (effective city),
    (effective pathology), (effective consultation_type).
Qed.

Lemma doctors_filt_matches specialty state city pathology consultation_type price_max
    (r : N * Doctor.t) :
  matches (doctors_filt specialty state city pathology consultation_type price_max)
    (stored_doctor r)
  = doctor_selected (effective specialty) (effective state) (effective city)
      (effective pathology) (effective consultation_type) price_max r.2.
Proof.
  unfold doctors_filt, doctor_selected.
  assert (∀ filt : query, filt !! "price_from" = None →
            matches match price_max with
                    | Some price_max => <["price_from" := Field (Lte price_max)]> filt
                    | None => filt
                    end (stored_doctor r)
            = matches filt (stored_doctor r)
              && supplied price_max (λ x,
                   match Doctor.price_from r.2 with
                   | Some p => bool_decide (p ≤ x)%Qc
                   | None => false
                   end)) as Hprice.
  { intros filt Hk. destruct price_max as [x|]; simpl; [|by rewrite andb_true_r].
    rewrite matches_insert, andb_comm by done. f_equal.
    change (stored_doctor r !! "price_from")
      with (Some (from_option BNum BNull (Doctor.price_from r.2))).
    apply threshold_holds. }
  rewrite Hprice by (by rewrite !lookup_if_truthy, lookup_empty).
  repeat (rewrite matches_if_truthy
            by (rewrite ?lookup_if_truthy by done; apply lookup_empty)).
  rewrite (matches_empty (H:=H)), andb_true_r.
  assert (∀ p k (f : Doctor.t → list string),
            stored_doctor r !! k = Some (BStrs (f r.2)) →
            supplied (effective p) (λ s, clause_holds k (Field (In [s])) (stored_doctor r))
            = supplied (effective p) (λ s, bool_decide (s ∈ f r.2))) as Hmem.
  { intros p k f Hk. destruct (effective p) as [s|]; simpl; [|done].
    rewrite Hk. apply membership_holds. }
  rewrite (Hmem specialty "specialties" Doctor.specialties),
    (Hmem state "states" Doctor.states), (Hmem city "cities" Doctor.cities),
    (Hmem pathology "pathologies" Doctor.pathologies),
    (Hmem consultation_type "consultation_types" Doctor.consultation_types)
    by done.
  f_equal.
  repeat match goal with |- context [supplied ?p ?f] =>
    generalize (supplied p f); intros ? end.
  repeat match goal with b : bool |- _ => destruct b end; done.
Qed.

Lemma Query_int_in_range (dflt ge le : Z) name (raw : option Z) :
  from_option (λ v, ge ≤ v ≤ le)%Z True raw →
  Query_int dflt ge le name raw = Ok (default dflt raw).
Proof.
  destruct raw as [v|]; simpl; [|done]. intros Hv. by rewrite bool_decide_eq_true_2.
Qed.

Lemma Query_float_in_range ge name (raw : option Qc) :
  from_option (λ v, ge ≤ v)%Qc True raw →
  Query_float ge name raw = Ok raw.
Proof.
  destruct raw as [v|]; simpl; [|done]. intros Hv. by rewrite bool_decide_eq_true_2.
Qed.

Lemma filter_all {A} (P : A → bool) (l : list A) :
  (∀ x, P x = true) → List.filter P l = l.
Proof. intros HP. induction l as [|x l IH]; [done|]. simpl. by rewrite HP, IH. Qed.

Lemma list_articles_exact (d : database) (arts : list (N * Article.t))
    (q category tag : option string) (limit : option Z) :
  literal_engine →
  collection d "article" = stored_article <$> arts →
  from_option plain true q = true →
  from_option (λ l, 1 ≤ l ≤ 100)%Z True limit →
  list_articles (Some d) q category tag limit
  = Ok (returned_article <$> take (Z.to_nat (default 20 limit))
          (List.filter
             (λ r, article_selected (effective q) (effective category) (effective tag) r.2)
             arts)).
Proof.
  intros Hlit Hcoll Hq Hlimit. unfold list_articles.
  rewrite Query_int_in_range by done. cbn [mbind result_bind].
  apply (get_documents_records stored_article returned_article);
    [done|intros r; apply str_id_stored| |].
  - apply articles_filt_valid. intros s Hs. apply effective_Some in Hs. subst q.
    destruct (Hlit s Hq) as (m & -> & _). by eexists.
  - intros r. by apply articles_filt_matches.
Qed.

Lemma list_doctors_exact (d : database) (docs : list (N * Doctor.t))
    (specialty state city pathology consultation_type : option string)
    (price_max : option Qc) (limit : option Z) :
  collection d "doctor" = stored_doctor <$> docs →
  from_option (λ x, 0 ≤ x)%Qc True price_max →
  from_option (λ l, 1 ≤ l ≤ 100)%Z True limit →
  list_doctors (Some d) specialty state city pathology consultation_type price_max limit
  = Ok (returned_doctor <$> take (Z.to_nat (default 50 limit))
          (List.filter
             (λ r, doctor_selected (effective specialty) (effective state)
                     (effective city) (effective pathology)
                     (effective consultation_type) price_max r.2)
             docs)).
Proof.
  intros Hcoll Hprice Hlimit. unfold list_doctors.
  rewrite Query_float_in_range by done. cbn [mbind result_bind].
  rewrite Query_int_in_range by done. cbn [mbind result_bind].
  apply (get_documents_records stored_doctor returned_doctor);
    [done|intros r; apply str_id_stored| |].
  - apply doctors_filt_valid.
  - intros r. apply doctors_filt_matches.
Qed.

Lemma text_holds_store (q : string) (m : string → bool) (r : N * Article.t) :
  regex_compile q "i" = Some m →
  clause_holds "$or"
    (Or [ {["title" := Regex q "i"]}; {["summary" := Regex q "i"]} ])
    (stored_article r)
  = m (Article.title r.2) || from_option m false (Article.summary r.2).
Proof.
  intros Hm. destruct r as [oid a]. cbn [clause_holds existsb fst snd].
  rewrite !conds_hold_singleton.
  change (stored_article (oid, a) !! "title") with (Some (BStr (Article.title a))).
  change (stored_article (oid, a) !! "summary")
    with (Some (dump_opt (Article.summary a))).
  rewrite orb_false_r. by destruct (Article.summary a) as [s|]; simpl; rewrite Hm.
Qed.

Lemma articles_filt_matches_store q category tag (r : N * Article.t) :
  (∀ s, effective q = Some s → is_Some (regex_compile s "i")) →
  matches (articles_filt q category tag) (stored_article r)
  = article_selected_with (store_search q) (effective category) (effective tag) r.2.
Proof.
  intros Hq. unfold articles_filt, article_selected_with, store_search.
  rewrite matches_if_truthy
    by (rewrite !lookup_if_truthy by done; apply lookup_empty).
  rewrite matches_if_truthy
    by (rewrite !lookup_if_truthy by done; apply lookup_empty).
  rewrite matches_if_truthy by apply lookup_empty.
  rewrite (matches_empty (H:=H)), andb_true_r.
  rewrite andb_comm, (andb_comm (supplied (effective category) _)).
  f_equal; [f_equal|].
  - destruct (effective q) as [pat|] eqn:Heq; simpl; [|done].
    destruct (Hq pat eq_refl) as [m Hm]. rewrite Hm. simpl.
    by apply text_holds_store.
  - destruct (effective category) as [c|]; simpl; [|done].
    change (stored_article r !! "category")
      with (Some (dump_opt (Article.category r.2))).
    apply exact_holds.
  - destruct (effective tag) as [t|]; simpl; [|done].
    change (stored_article r !! "tags") with (Some (BStrs (Article.tags r.2))).
    apply membership_holds.
Qed.

Lemma list_articles_store_exact (d : database) (arts : list (N * Article.t))
    (q category tag : option string) (limit : option Z) :
  collection d "article" = stored_article <$> arts →
  (∀ s, effective q = Some s → is_Some (regex_compile s "i")) →
  from_option (λ l, 1 ≤ l ≤ 100)%Z True limit →
  list_articles (Some d) q category tag limit
  = Ok (returned_article <$> take (Z.to_nat (default 20 limit))
          (List.filter
             (λ r, article_selected_with (store_search q) (effective category)
                     (effective tag) r.2)
             arts)).
Proof.
  intros Hcoll Hq Hlimit. unfold list_articles.
  rewrite Query_int_in_range by done. cbn [mbind result_bind].
  apply (get_documents_records stored_article returned_article);
    [done|intros r; apply str_id_stored| |].
  - by apply articles_filt_valid.
  - intros r. by apply articles_filt_matches_store.
Qed.

(** C1, as amended.  On a store whose article and doctor collections hold
    records of their schemas and for a [limit] that is absent or within
    1..100, [GET /articles] and [GET /doctors] return exactly the stored
    records that satisfy the conjunction of the predicates of the
    parameters that are supplied and not empty (exact match for [category],
    membership for [tag] and the doctor list fields, threshold for a
    [price_max] that is not negative), in storage order and capped at
    [limit]; a parameter supplied as the empty string constrains nothing,
    and with no parameter at all the first [limit] records are returned
    unfiltered.  A non-empty [q] that the store accepts adds one conjunct,
    that the store's case-insensitive search for [q] finds something in the
    title or in the summary. *)
Theorem list_endpoints_select_exactly (d : database)
    (arts : list (N * Article.t)) (docs : list (N * Doctor.t))
    (q category tag specialty state city pathology consultation_type : option string)
    (price_max : option Qc) (limit : option Z) :
  collection d "article" = stored_article <$> arts →
  collection d "doctor" = stored_doctor <$> docs →
  from_option (λ l, 1 ≤ l ≤ 100)%Z True limit →
  list_articles (Some d) None category tag limit
  = Ok (returned_article <$> take (Z.to_nat (default 20 limit))
          (List.filter
             (λ r, article_selected None (effective category) (effective tag) r.2)
             arts))
  ∧ list_articles (Some d) (Some "") category tag limit
    = list_articles (Some d) None category tag limit
  ∧ ((∀ s, effective q = Some s → is_Some (regex_compile s "i")) →
     list_articles (Some d) q category tag limit
     = Ok (returned_article <$> take (Z.to_nat (default 20 limit))
             (List.filter
                (λ r, article_selected_with (store_search q) (effective category)
                        (effective tag) r.2)
                arts)))
  ∧ (from_option (λ x, 0 ≤ x)%Qc True price_max →
     list_doctors (Some d) specialty state city pathology consultation_type
       price_max limit
     = Ok (returned_doctor <$> take (Z.to_nat (default 50 limit))
             (List.filter
                (λ r, doctor_selected (effective specialty) (effective state)
                        (effective city) (effective pathology)
                        (effective consultation_type) price_max r.2)
                docs)))
  ∧ list_articles (Some d) None None None limit
    = Ok (returned_article <$> take (Z.to_nat (default 20 limit)) arts)
  ∧ list_doctors (Some d) None None None None None None limit
    = Ok (returned_doctor <$> take (Z.to_nat (default 50 limit)) docs).
Proof.
  intros Harts Hdocs Hlimit. split_and!.
  - by rewrite (list_articles_store_exact d arts).
  - done.
  - intros Hq. by apply list_articles_store_exact.
  - intros Hprice. by apply list_doctors_exact.
  - rewrite (list_articles_store_exact d arts) by done. by rewrite filter_all.
  - rewrite (list_doctors_exact d docs) by done. by rewrite filter_all.
Qed.

(** What a successful read is made of. *)
Lemma get_documents_Ok db name (filt : query) limit res :
  get_documents db name filt limit = Ok res →
  ∃ d, db = Some d ∧ filter_valid filt = true
       ∧ res = str_id <$> take (Z.to_nat limit)
                 (List.filter (matches filt) (collection d name)).
Proof.
  unfold get_documents. destruct db as [d|]; [|done].
  destruct (filter_valid filt); [|done]. intros [= <-]. by exists d.
Qed.

Lemma get_documents_length db name (filt : query) limit res :
  (0 ≤ limit)%Z →
  get_documents db name filt limit = Ok res → (Z.of_nat (length res) ≤ limit)%Z.
Proof.
  intros Hlimit (d & _ & _ & ->)%get_documents_Ok.
  rewrite length_fmap, length_take. lia.
Qed.



(** C10.  [GET /doctors] refuses every negative [price_max] with a
    validation error; a request is served only when [price_max] is absent
    or at least 0. *)
Theorem price_max_is_validated (db : store)
    (specialty state city pathology consultation_type : option string)
    (price_max : option Qc) (limit : option Z) :
  (∀ x, price_max = Some x → (x < 0)%Qc →
     list_doctors db specialty state city pathology consultation_type price_max limit
     = Err (RequestValidationError "price_max"))
  ∧ (∀ res,
       list_doctors db specialty state city pathology consultation_type price_max limit
       = Ok res →
       price_max = None ∨ ∃ x, price_max = Some x ∧ (0 ≤ x)%Qc).
Proof.
  split.
  - intros x -> Hx. unfold list_doctors. simpl.
    rewrite bool_decide_eq_false_2; [done|]. by apply Qclt_not_le.
  - intros res. destruct price_max as [x|]; [|by left].
    unfold list_doctors. simpl. case_bool_decide; [|done].
    intros _. right. by exists x.
Qed.

Lemma matches_lookup (filt : query) k cl d :
  matches filt d = true → filt !! k = Some cl → clause_holds k cl d = true.
Proof.
  unfold matches. rewrite bool_decide_eq_true. intros Hall Hk.
  by apply (map_Forall_lookup_1 _ _ _ _ Hall Hk).
Qed.

Lemma str_id_lookup_ne (d : document) k : k ≠ "_id" → str_id d !! k = d !! k.
Proof.
  intros Hk. unfold str_id. destruct (d !! "_id") as [[]|]; try done.
  by rewrite lookup_insert_ne.
Qed.

Lemma Lte_holds_inv (x : Qc) (v : option bson) :
  cond_holds (Lte x) v = true → ∃ p, v = Some (BNum p) ∧ (p ≤ x)%Qc.
Proof.
  destruct v as [[]|]; simpl; try done.
  intros Hle%bool_decide_eq_true. by eexists.
Qed.

(** The records of a successful read come from the collection and match
    the filter. *)
Lemma get_documents_elem db name (filt : query) limit res doc :
  get_documents db name filt limit = Ok res → doc ∈ res →
  ∃ d doc0, db = Some d ∧ doc0 ∈ collection d name
            ∧ matches filt doc0 = true ∧ doc = str_id doc0.
Proof.
  intros (d & -> & _ & ->)%get_documents_Ok (doc0 & -> & Hin)%list_elem_of_fmap.
  apply subseteq_take, list_elem_of_In, filter_In in Hin as [Hin Hm].
  exists d, doc0. by rewrite list_elem_of_In.
Qed.

Lemma list_doctors_Ok db specialty state city pathology consultation_type
    price_max limit res :
  list_doctors db specialty state city pathology consultation_type price_max limit
  = Ok res →
  ∃ n, get_documents db "doctor"
         (doctors_filt specialty state city pathology consultation_type price_max) n
       = Ok res.
Proof.
  unfold list_doctors. destruct price_max as [x|]; simpl.
  - case_bool_decide; [|done]. simpl.
    destruct (Query_int 50 1 100 "limit" limit) as [n|]; [|done]. by exists n.
  - destruct (Query_int 50 1 100 "limit" limit) as [n|]; [|done]. by exists n.
Qed.

(** C7.  When [price_max] is supplied, every doctor that [GET /doctors]
    returns has a [price_from] that is present and at most [price_max];
    a stored doctor without [price_from] is not in the result. *)
Theorem price_max_threshold (db : store)
    (specialty state city pathology consultation_type : option string)
    (price_max : Qc) (limit : option Z) (res : list document) :
  list_doctors db specialty state city pathology consultation_type
    (Some price_max) limit = Ok res →
  (∀ doc, doc ∈ res →
     ∃ p, doc !! "price_from" = Some (BNum p) ∧ (p ≤ price_max)%Qc)
  ∧ (∀ d doc0, db = Some d → doc0 ∈ collection d "doctor" →
       doc0 !! "price_from" = None ∨ doc0 !! "price_from" = Some BNull →
       str_id doc0 ∉ res).
Proof.
  intros [n Hres]%list_doctors_Ok.
  assert (∀ doc, doc ∈ res →
            ∃ p, doc !! "price_from" = Some (BNum p) ∧ (p ≤ price_max)%Qc) as Hall.
  { intros doc (d & doc0 & _ & _ & Hm & ->)%(get_documents_elem _ _ _ _ _ _ Hres).
    rewrite str_id_lookup_ne by done. apply Lte_holds_inv.
    apply (matches_lookup _ "price_from" (Field (Lte price_max)) _ Hm).
    unfold doctors_filt. apply lookup_insert_eq. }
  split; [done|].
  intros d doc0 _ _ Hnone Hin. apply Hall in Hin as (p & Hp & _).
  rewrite str_id_lookup_ne in Hp by done. destruct Hnone; congruence.
Qed.

(** C9.  An empty string in [q], [category], [tag], [specialty], [state],
    [city], [pathology] or [consultation_type] is treated as an absent
    parameter, whereas [price_max = 0] adds the constraint
    [price_from ≤ 0] to the filter: every doctor that [GET /doctors]
    then returns has a [price_from] of at most 0, and on a store of doctor
    records the answer is exactly the records that satisfy the other
    parameters and have a [price_from] of at most 0. *)
Theorem empty_string_is_absent (db : store)
    (q category tag specialty state city pathology consultation_type : option string)
    (price_max : option Qc) (limit : option Z) :
  list_articles db (Some "") category tag limit = list_articles db None category tag limit
  ∧ list_articles db q (Some "") tag limit = list_articles db q None tag limit
  ∧ list_articles db q category (Some "") limit = list_articles db q category None limit
  ∧ list_doctors db (Some "") state city pathology consultation_type price_max limit
    = list_doctors db None state city pathology consultation_type price_max limit
  ∧ list_doctors db specialty (Some "") city pathology consultation_type price_max limit
    = list_doctors db specialty None city pathology consultation_type price_max limit
  ∧ list_doctors db specialty state (Some "") pathology consultation_type price_max limit
    = list_doctors db specialty state None pathology consultation_type price_max limit
  ∧ list_doctors db specialty state city (Some "") consultation_type price_max limit
    = list_doctors db specialty state city None consultation_type price_max limit
  ∧ list_doctors db specialty state city pathology (Some "") price_max limit
    = list_doctors db specialty state city pathology None price_max limit
  ∧ doctors_filt specialty state city pathology consultation_type (Some 0%Qc)
    = <["price_from" := Field (Lte 0%Qc)]>
        (doctors_filt specialty state city pathology consultation_type None)
  ∧ (∀ doc, matches (doctors_filt specialty state city pathology consultation_type
                       (Some 0%Qc)) doc
            = cond_holds (Lte 0%Qc) (doc !! "price_from")
              && matches (doctors_filt specialty state city pathology
                            consultation_type None) doc)
  ∧ (∀ res,
       list_doctors db specialty state city pathology consultation_type
         (Some 0%Qc) limit = Ok res →
       ∀ doc, doc ∈ res →
         ∃ p, doc !! "price_from" = Some (BNum p) ∧ (p ≤ 0)%Qc)
  ∧ (∀ d docs,
       db = Some d → collection d "doctor" = stored_doctor <$> docs →
       from_option (λ l, 1 ≤ l ≤ 100)%Z True limit →
       list_doctors db specialty state city pathology consultation_type
         (Some 0%Qc) limit
       = Ok (returned_doctor <$> take (Z.to_nat (default 50 limit))
               (List.filter
                  (λ r, doctor_selected (effective specialty) (effective state)
                          (effective city) (effective pathology)
                          (effective consultation_type) (Some 0%Qc) r.2)
                  docs))).
Proof.
  split_and!; try done.
  - intros doc. unfold doctors_filt. apply matches_insert.
    by rewrite !lookup_if_truthy, lookup_empty.
  - intros res [n Hres]%list_doctors_Ok doc
      (d & doc0 & _ & _ & Hm & ->)%(get_documents_elem _ _ _ _ _ _ Hres).
    rewrite str_id_lookup_ne by done. apply Lte_holds_inv.
    apply (matches_lookup _ "price_from" (Field (Lte 0%Qc)) _ Hm).
    unfold doctors_filt. apply lookup_insert_eq.
  - intros d docs -> Hcoll Hlimit. by apply list_doctors_exact.
Qed.

Lemma get_article_read (d : database) (arts : list (N * Article.t)) (slug : string) :
  collection d "article" = stored_article <$> arts →
  get_documents (Some d) "article" {["slug" := Field (Eq slug)]} 1
  = Ok (returned_article <$>
          take 1 (List.filter (λ r, bool_decide (Article.slug r.2 = slug)) arts)).
Proof.
  intros Hcoll.
  apply (get_documents_records stored_article returned_article);
    [done|intros r; apply str_id_stored| |].
  - unfold filter_valid. apply bool_decide_eq_true. by rewrite map_Forall_singleton.
  - intros r. unfold matches. apply Bool.eq_iff_eq_true.
    rewrite !bool_decide_eq_true, map_Forall_singleton. simpl.
    change (stored_article r !! "slug") with (Some (BStr (Article.slug r.2))).
    simpl. by rewrite bool_decide_eq_true.
Qed.

Lemma filter_nil_iff {A} (P : A → bool) (l : list A) :
  List.filter P l = [] ↔ ∀ x, x ∈ l → P x = false.
Proof.
  induction l as [|x l IH]; simpl.
  - split; [|done]. intros _ y Hy. by apply elem_of_nil in Hy.
  - destruct (P x) eqn:HP.
    + split; [done|]. intros Hall. specialize (Hall x (list_elem_of_here _ _)). congruence.
    + rewrite IH. split.
      * intros Hall y [->|Hy]%elem_of_cons; auto.
      * intros Hall y Hy. apply Hall. by right.
Qed.

Lemma filter_head {A} (P : A → bool) (l : list A) x tl :
  List.filter P l = x :: tl → x ∈ l ∧ P x = true.
Proof.
  intros Heq. rewrite list_elem_of_In. apply filter_In. rewrite Heq. by left.
Qed.

(** C6.  On a store of article records, [GET /articles/{slug}] returns a
    stored article whose slug is the parameter, as a read presents it, when
    some stored article has that slug, and fails with 404 exactly when
    none has; a list endpoint whose query the store accepts returns the
    empty sequence, not an error, when no record matches. *)
Theorem get_article_or_not_found (d : database) (arts : list (N * Article.t))
    (slug : string) :
  collection d "article" = stored_article <$> arts →
  ((∃ r, r ∈ arts ∧ Article.slug r.2 = slug) →
     ∃ r, r ∈ arts ∧ Article.slug r.2 = slug
          ∧ get_article (Some d) slug = Ok (returned_article r)
          ∧ returned_article r !! "slug" = Some (BStr slug))
  ∧ (get_article (Some d) slug = Err (HTTPException 404 "Article not found")
     ↔ ∀ r, r ∈ arts → Article.slug r.2 ≠ slug)
  ∧ (∀ q category tag limit,
       from_option (λ l, 1 ≤ l ≤ 100)%Z True limit →
       (∀ s, effective q = Some s → is_Some (regex_compile s "i")) →
       (∀ doc, doc ∈ collection d "article" →
               matches (articles_filt q category tag) doc = false) →
       list_articles (Some d) q category tag limit = Ok [])
  ∧ (∀ specialty state city pathology consultation_type price_max limit,
       from_option (λ x, 0 ≤ x)%Qc True price_max →
       from_option (λ l, 1 ≤ l ≤ 100)%Z True limit →
       (∀ doc, doc ∈ collection d "doctor" →
               matches (doctors_filt specialty state city pathology
                          consultation_type price_max) doc = false) →
       list_doctors (Some d) specialty state city pathology consultation_type
         price_max limit = Ok []).
Proof.
  intros Hcoll. unfold get_article. rewrite (get_article_read d arts) by done.
  cbn [mbind result_bind].
  destruct (List.filter (λ r, bool_decide (Article.slug r.2 = slug)) arts)
    as [|r tl] eqn:Hfilter.
  - rewrite filter_nil_iff in Hfilter. split_and!.
    + intros (r & Hin & Hslug). apply Hfilter in Hin.
      by rewrite bool_decide_eq_false in Hin.
    + split; [|done]. intros _ r Hin. apply Hfilter in Hin.
      by rewrite bool_decide_eq_false in Hin.
    + intros q category tag limit Hlimit Hq Hnone. unfold list_articles.
      rewrite Query_int_in_range by done. cbn [mbind result_bind].
      unfold get_documents. rewrite articles_filt_valid by done.
      by rewrite (proj2 (filter_nil_iff _ _) Hnone), take_nil.
    + intros specialty state city pathology consultation_type price_max limit
        Hprice Hlimit Hnone. unfold list_doctors.
      rewrite Query_float_in_range by done. cbn [mbind result_bind].
      rewrite Query_int_in_range by done. cbn [mbind result_bind].
      unfold get_documents. rewrite doctors_filt_valid.
      by rewrite (proj2 (filter_nil_iff _ _) Hnone), take_nil.
  - apply filter_head in Hfilter as [Hin Hslug%bool_decide_eq_true]. split_and!.
    + intros _. exists r. split_and!; [done..|]. by rewrite <-Hslug.
    + split; [done|]. intros Hall. by destruct (Hall r Hin).
    + intros q category tag limit Hlimit Hq Hnone. unfold list_articles.
      rewrite Query_int_in_range by done. cbn [mbind result_bind].
      unfold get_documents. rewrite articles_filt_valid by done.
      by rewrite (proj2 (filter_nil_iff _ _) Hnone), take_nil.
    + intros specialty state city pathology consultation_type price_max limit
        Hprice Hlimit Hnone. unfold list_doctors.
      rewrite Query_float_in_range by done. cbn [mbind result_bind].
      rewrite Query_int_in_range by done. cbn [mbind result_bind].
      unfold get_documents. rewrite doctors_filt_valid.
      by rewrite (proj2 (filter_nil_iff _ _) Hnone), take_nil.
Qed.

End ListEndpoints.

(** ** Text *)

Lemma append_cons (x : ascii) (a b : string) : String x a +:+ b = String x (a +:+ b).
Proof. reflexivity. Qed.

Lemma append_assoc (a b c : string) : (a +:+ b) +:+ c = a +:+ b +:+ c.
Proof. induction a as [|x a IH]; [done|]. rewrite !append_cons. by f_equal. Qed.

Lemma append_nil_r (a : string) : a +:+ "" = a.
Proof. induction a as [|x a IH]; [done|]. rewrite append_cons. by f_equal. Qed.

Lemma starts_with_prefix (q s : string) :
  starts_with q s = true ↔ ∃ post, s = q +:+ post.
Proof.
  revert s. induction q as [|a q IH]; intros s; simpl.
  - split; [by eexists|done].
  - destruct s as [|b s].
    + split; [done|by intros [post ?]].
    + destruct (Ascii.eqb_spec a b) as [->|Hne].
      * rewrite IH. split.
        -- intros [post ->]. by exists post.
        -- intros [post [= ->]]. by exists post.
      * split; [done|]. intros [post [= -> _]]. done.
Qed.

(** [contains] decides occurrence. *)
Lemma contains_occurs (x s : string) : contains x s = true ↔ occurs_in x s.
Proof.
  induction s as [|c s IH]; simpl.
  - destruct (starts_with x "") eqn:Hx.
    + split; [|done]. intros _. apply starts_with_prefix in Hx as [post Hpost].
      by exists "", post.
    + split; [done|]. intros ([|a pre] & post & Heq); [|done].
      assert (starts_with x "" = true) by (apply starts_with_prefix; by exists post).
      congruence.
  - destruct (starts_with x (String c s)) eqn:Hx.
    + split; [|done]. intros _. apply starts_with_prefix in Hx as [post Hpost].
      by exists "", post.
    + rewrite IH. split.
      * intros (pre & post & ->). by exists (String c pre), post.
      * intros ([|a pre] & post & Heq).
        -- assert (starts_with x (String c s) = true)
             by (apply starts_with_prefix; by exists post).
           congruence.
        -- injection Heq as _ Heq. by exists pre, post.
Qed.

(** [icontains q s] holds exactly when the lower-cased [q] occurs in the
    lower-cased [s]. *)
Lemma icontains_occurs (q s : string) :
  icontains q s = true ↔ occurs_in (lower_string q) (lower_string s).
Proof. apply contains_occurs. Qed.

Lemma occurs_in_join (sep x : string) (lines : list string) :
  x ∈ lines → occurs_in x (join sep lines).
Proof.
  induction lines as [|l ls IH]; [by intros ?%elem_of_nil|].
  intros [->|Hin]%elem_of_cons.
  - destruct ls as [|l2 ls]; simpl.
    + exists "", "". by rewrite append_nil_r.
    + by exists "", (sep +:+ join sep (l2 :: ls)).
  - destruct (IH Hin) as (pre & post & Heq). destruct ls as [|l2 ls].
    + by apply elem_of_nil in Hin.
    + exists (l +:+ sep +:+ pre), post.
      change (join sep (l :: l2 :: ls)) with (l +:+ sep +:+ join sep (l2 :: ls)).
      by rewrite Heq, !append_assoc.
Qed.

(** ** Sitemap *)

Section Sitemap.
Context `{!Externals}.

Lemma read_all_articles (d : database) (arts : list (N * Article.t)) limit :
  collection d "article" = stored_article <$> arts →
  get_documents (Some d) "article" ∅ limit
  = Ok (returned_article <$> take (Z.to_nat limit) arts).
Proof.
  intros Hcoll.
  rewrite (get_documents_records stored_article returned_article d "article" ∅
             limit arts (λ _, true)).
  - by rewrite filter_all.
  - done.
  - intros r. apply str_id_stored.
  - apply filter_valid_empty.
  - intros r. apply matches_empty.
Qed.

Lemma article_urls_record (base : string) (r : N * Article.t) :
  Article.slug r.2 ≠ "" →
  article_urls base (returned_article r)
  = [url_line (base +:+ "/articles/" +:+ Article.slug r.2)].
Proof.
  intros Hslug. unfold article_urls.
  change (returned_article r !! "slug") with (Some (BStr (Article.slug r.2))).
  simpl. by rewrite bool_decide_eq_true_2.
Qed.

Lemma sitemap_urls_records (d : database) (arts : list (N * Article.t)) base :
  collection d "article" = stored_article <$> arts →
  sitemap_urls (Some d) base
  = (((λ p, url_line (base +:+ p)) <$> static_paths)
     ++ (take 500 arts ≫= record_urls base))%list.
Proof.
  intros Hcoll. unfold sitemap_urls. rewrite (read_all_articles d arts) by done.
  f_equal. change (Z.to_nat 500) with 500%nat.
  induction (take 500 arts) as [|r l IH]; [done|].
  rewrite fmap_cons, !bind_cons, IH. by f_equal.
Qed.

(** C4, as amended.  The sitemap contains an entry for every static path
    whatever the state of the store; on a store of article records it
    contains an entry for every article with a non-empty slug among the
    first 500 in storage order, which are the ones the handler reads; and
    when the read fails the entries are the static ones alone. *)
Theorem sitemap_entries (db : store) (FRONTEND_URL : option string) :
  let base := default "https://example.com" FRONTEND_URL in
  (∀ p, p ∈ static_paths →
        occurs_in (url_line (base +:+ p)) (sitemap db FRONTEND_URL))
  ∧ (∀ d arts r,
       db = Some d → collection d "article" = stored_article <$> arts →
       r ∈ take 500 arts → Article.slug r.2 ≠ "" →
       occurs_in (url_line (base +:+ "/articles/" +:+ Article.slug r.2))
         (sitemap db FRONTEND_URL))
  ∧ (∀ e, get_documents db "article" ∅ 500 = Err e →
          sitemap_urls db base = (λ p, url_line (base +:+ p)) <$> static_paths).
Proof.
  intros base. split_and!.
  - intros p Hp. apply occurs_in_join.
    rewrite !elem_of_app. right. left. fold base. unfold sitemap_urls.
    assert (url_line (base +:+ p) ∈ (λ p, url_line (base +:+ p)) <$> static_paths)
      by (apply list_elem_of_fmap; eauto).
    destruct (get_documents db "article" ∅ 500); [|done].
    apply elem_of_app. by left.
  - intros d arts r -> Hcoll Hin Hslug. apply occurs_in_join.
    rewrite !elem_of_app. right. left. fold base. unfold sitemap_urls.
    rewrite (read_all_articles d arts) by done.
    apply elem_of_app. right. apply list_elem_of_bind.
    exists (returned_article r). split.
    + rewrite article_urls_record by done. apply list_elem_of_here.
    + apply list_elem_of_fmap. by exists r.
  - intros e He. unfold sitemap_urls. by rewrite He.
Qed.

End Sitemap.

(** ** Write endpoints *)

Section WriteEndpoints.
Context `{!Externals}.

Lemma required_insert_ne {A} name (validate : json → option A) k j
    (body : gmap string json) :
  k ≠ name → required name validate (<[k:=j]> body) = required name validate body.
Proof. intros Hk. unfold required. by rewrite lookup_insert_ne. Qed.

Lemma defaulted_insert_ne {A} name (dflt : A) (validate : json → option A) k j
    (body : gmap string json) :
  k ≠ name →
  defaulted name dflt validate (<[k:=j]> body) = defaulted name dflt validate body.
Proof. intros Hk. unfold defaulted. by rewrite lookup_insert_ne. Qed.

Lemma required_Err {A} name (validate : json → option A) body e :
  required name validate body = Err e → e = RequestValidationError name.
Proof.
  unfold required. destruct (body !! name) as [j|]; [|congruence].
  destruct (validate j); congruence.
Qed.

Lemma defaulted_Err {A} name (dflt : A) (validate : json → option A) body e :
  defaulted name dflt validate body = Err e → e = RequestValidationError name.
Proof.
  unfold defaulted. destruct (body !! name) as [j|]; [|congruence].
  destruct (validate j); congruence.
Qed.

Ltac validation_step :=
  match goal with
  | |- mbind _ ?m = _ → _ =>
      let E := fresh "E" in
      destruct m eqn:E; cbn [mbind result_bind];
      [|first [apply required_Err in E|apply defaulted_Err in E];
        subst; intros; simplify_eq; eauto]
  end.

Lemma appointment_validation_error body e :
  AppointmentRequest.model_validate body = Err e → ∃ loc, e = RequestValidationError loc.
Proof. unfold AppointmentRequest.model_validate. repeat validation_step. done. Qed.

Lemma newsletter_validation_error body e :
  NewsletterSubscriber.model_validate body = Err e → ∃ loc, e = RequestValidationError loc.
Proof. unfold NewsletterSubscriber.model_validate. repeat validation_step. done. Qed.

Lemma appointment_needs_patient_name body :
  body !! "patient_name" = None →
  AppointmentRequest.model_validate body = Err (RequestValidationError "patient_name").
Proof.
  intros Hname. unfold AppointmentRequest.model_validate.
  assert (required "patient_name" as_str body
          = Err (RequestValidationError "patient_name")) as ->; [|done].
  unfold required. by rewrite Hname.
Qed.

Lemma malformed_email_fails name body s :
  body !! name = Some (JStr s) → EmailStr s = None →
  required name (λ j, as_str j ≫= EmailStr) body = Err (RequestValidationError name).
Proof. intros Hbody Hs. unfold required. rewrite Hbody. simpl. by rewrite Hs. Qed.

Lemma appointment_ignores_extra k j body :
  k ∉ AppointmentRequest.model_fields →
  AppointmentRequest.model_validate (<[k:=j]> body)
  = AppointmentRequest.model_validate body.
Proof.
  intros Hk. unfold AppointmentRequest.model_validate.
  rewrite !required_insert_ne, !defaulted_insert_ne;
    try done; intros ->; apply Hk; unfold AppointmentRequest.model_fields; set_solver.
Qed.

Lemma newsletter_ignores_extra k j body :
  k ∉ NewsletterSubscriber.model_fields →
  NewsletterSubscriber.model_validate (<[k:=j]> body)
  = NewsletterSubscriber.model_validate body.
Proof.
  intros Hk. unfold NewsletterSubscriber.model_validate.
  rewrite !required_insert_ne, !defaulted_insert_ne;
    try done; intros ->; apply Hk; unfold NewsletterSubscriber.model_fields; set_solver.
Qed.

Lemma appointment_dump_fields m :
  dom (AppointmentRequest.model_dump m) = AppointmentRequest.model_fields.
Proof.
  unfold AppointmentRequest.model_dump, AppointmentRequest.model_fields.
  rewrite !dom_insert_L, dom_empty_L. done.
Qed.

Lemma newsletter_dump_fields m :
  dom (NewsletterSubscriber.model_dump m) = NewsletterSubscriber.model_fields.
Proof.
  unfold NewsletterSubscriber.model_dump, NewsletterSubscriber.model_fields.
  rewrite !dom_insert_L, dom_empty_L. done.
Qed.

(** What a successful write leaves in the store. *)
Lemma create_document_Ok db name data db' doc_id :
  create_document db name data = (db', Ok doc_id) →
  ∃ d d', db = Some d ∧ db' = Some d'
          ∧ collection d' name = (collection d name ++ [stored (next_oid d) data])%list.
Proof.
  unfold create_document. destruct db as [d|]; [|done]. intros [= <- _].
  eexists _, _. split_and!; try done. unfold collection at 1. simpl.
  by rewrite lookup_total_insert_eq.
Qed.

Lemma create_appointment_Ok db body db' c :
  create_appointment db body = (db', Ok c) →
  ∃ m d d', AppointmentRequest.model_validate body = Ok m
    ∧ db = Some d ∧ db' = Some d'
    ∧ collection d' "appointmentrequest"
      = (collection d "appointmentrequest"
         ++ [stored (next_oid d) (AppointmentRequest.model_dump m)])%list.
Proof.
  unfold create_appointment.
  destruct (AppointmentRequest.model_validate body) as [m|]; [|done].
  destruct (create_document _ _ _) as [db1 [doc_id|]] eqn:Hw; [|done].
  intros [= <- _]. apply create_document_Ok in Hw as (d & d' & -> & -> & Hcoll).
  by exists m, d, d'.
Qed.

Lemma subscribe_newsletter_Ok db body db' c :
  subscribe_newsletter db body = (db', Ok c) →
  ∃ m d d', NewsletterSubscriber.model_validate body = Ok m
    ∧ db = Some d ∧ db' = Some d'
    ∧ collection d' "newslettersubscriber"
      = (collection d "newslettersubscriber"
         ++ [stored (next_oid d) (NewsletterSubscriber.model_dump m)])%list.
Proof.
  unfold subscribe_newsletter.
  destruct (NewsletterSubscriber.model_validate body) as [m|]; [|done].
  destruct (create_document _ _ _) as [db1 [doc_id|]] eqn:Hw; [|done].
  intros [= <- _]. apply create_document_Ok in Hw as (d & d' & -> & -> & Hcoll).
  by exists m, d, d'.
Qed.

(** C3, as amended.  A field of the request body that the schema does not
    declare is ignored at the boundary, not refused: [POST /appointment]
    and [POST /newsletter] treat the body as they treat it without that
    field.  The record that an accepted request adds to the store carries
    exactly the declared fields of its schema and the store-assigned
    identifier. *)
Theorem undeclared_fields_are_ignored (db : store) (body : gmap string json)
    (k : string) (j : json) :
  (k ∉ AppointmentRequest.model_fields →
     create_appointment db (<[k:=j]> body) = create_appointment db body)
  ∧ (k ∉ NewsletterSubscriber.model_fields →
     subscribe_newsletter db (<[k:=j]> body) = subscribe_newsletter db body)
  ∧ (∀ db' c, create_appointment db body = (db', Ok c) →
       ∃ d' doc, db' = Some d'
         ∧ last (collection d' "appointmentrequest") = Some doc
         ∧ dom doc = {["_id"]} ∪ AppointmentRequest.model_fields)
  ∧ (∀ db' c, subscribe_newsletter db body = (db', Ok c) →
       ∃ d' doc, db' = Some d'
         ∧ last (collection d' "newslettersubscriber") = Some doc
         ∧ dom doc = {["_id"]} ∪ NewsletterSubscriber.model_fields).
Proof.
  split_and!.
  - intros Hk. unfold create_appointment. by rewrite appointment_ignores_extra.
  - intros Hk. unfold subscribe_newsletter. by rewrite newsletter_ignores_extra.
  - intros db' c (m & d & d' & _ & _ & -> & Hcoll)%create_appointment_Ok.
    eexists d', _. split; [done|]. rewrite Hcoll, last_snoc. split; [done|].
    unfold stored. by rewrite dom_insert_L, appointment_dump_fields.
  - intros db' c (m & d & d' & _ & _ & -> & Hcoll)%subscribe_newsletter_Ok.
    eexists d', _. split; [done|]. rewrite Hcoll, last_snoc. split; [done|].
    unfold stored. by rewrite dom_insert_L, newsletter_dump_fields.
Qed.

(** C8.  A payload that fails validation (no [patient_name], a malformed
    email, or any other failure of the schema) is refused with a validation
    error by [POST /appointment] and [POST /newsletter] and leaves the
    store as it was: nothing is written. *)
Theorem invalid_payload_writes_nothing (db : store) (body : gmap string json) :
  (body !! "patient_name" = None
   ∨ (∃ s, body !! "email" = Some (JStr s) ∧ EmailStr s = None)
   ∨ (∃ e, AppointmentRequest.model_validate body = Err e) →
   ∃ loc, create_appointment db body = (db, Err (RequestValidationError loc)))
  ∧ (body !! "email" = None
     ∨ (∃ s, body !! "email" = Some (JStr s) ∧ EmailStr s = None)
     ∨ (∃ e, NewsletterSubscriber.model_validate body = Err e) →
     ∃ loc, subscribe_newsletter db body = (db, Err (RequestValidationError loc))).
Proof.
  split.
  - intros Hbad.
    assert (∃ e, AppointmentRequest.model_validate body = Err e) as [e He].
    { destruct Hbad as [Hname|[(s & Hbody & Hs)|Herr]]; [| |done].
      - eexists. by apply appointment_needs_patient_name.
      - unfold AppointmentRequest.model_validate.
        rewrite (malformed_email_fails "email" body s) by done.
        destruct (required "patient_name" as_str body); by eexists. }
    destruct (appointment_validation_error _ _ He) as [loc ->].
    exists loc. unfold create_appointment. by rewrite He.
  - intros Hbad.
    assert (∃ e, NewsletterSubscriber.model_validate body = Err e) as [e He].
    { destruct Hbad as [Hnone|[(s & Hbody & Hs)|Herr]]; [| |done].
      - unfold NewsletterSubscriber.model_validate, required.
        rewrite Hnone. by eexists.
      - unfold NewsletterSubscriber.model_validate.
        rewrite (malformed_email_fails "email" body s) by done. by eexists. }
    destruct (newsletter_validation_error _ _ He) as [loc ->].
    exists loc. unfold subscribe_newsletter. by rewrite He.
Qed.

End WriteEndpoints.

(** ** The reference instance *)

Lemma parse_plain (p : string) :
  plain p = true →
  ∃ atoms, parse_atoms p = Some atoms
           ∧ ∀ s, match_here true atoms s
                  = starts_with (lower_string p) (lower_string s).
Proof.
  induction p as [|c p IH]; simpl.
  - intros _. by exists [].
  - intros [Hc Hp]%andb_true_iff. apply bool_decide_eq_true in Hc.
    destruct (IH Hp) as (atoms & Hparse & Hhere).
    rewrite bool_decide_eq_false_2, bool_decide_eq_false_2, Hparse; [|done|].
    + exists (Lit c :: atoms). split; [done|].
      intros [|x s]; simpl; [done|]. rewrite Hhere.
      destruct (Ascii.eqb_spec (lower c) (lower x)) as [Heq|Hne].
      * by rewrite bool_decide_eq_true_2.
      * by rewrite bool_decide_eq_false_2.
    + intros ->. apply Hc. by apply (bool_decide_unpack _).
Qed.

Lemma search_literal (atoms : list atom) (p : string) :
  (∀ s, match_here true atoms s = starts_with (lower_string p) (lower_string s)) →
  ∀ s, search true atoms s = icontains p s.
Proof.
  intros Hhere s. unfold icontains.
  induction s as [|c s IH]; simpl; rewrite Hhere; simpl.
  - by destruct (starts_with (lower_string p) "").
  - rewrite IH. by destruct (starts_with _ _).
Qed.

Lemma reference_literal : @literal_engine reference.
Proof.
  intros p Hp. destruct (parse_plain p Hp) as (atoms & Hparse & Hhere).
  exists (search true atoms). split.
  - simpl. unfold fragment_compile. by rewrite Hparse.
  - by apply search_literal.
Qed.

(** ** The claims on the sample data *)

(** C1, as stated, fails: with [category] supplied as the empty string,
    [GET /articles] returns both sample articles, neither of which has the
    empty string as its category. *)
Lemma empty_category_selects_all :
  list_articles (H:=reference) (Some sample_db) None (Some "") None None
  ≠ Ok (returned_article <$>
          take 20 (List.filter (λ r, article_selected None (Some "") None r.2)
                     sample_articles)).
Proof.
  assert (list_articles (H:=reference) (Some sample_db) None (Some "") None None
          = Ok (returned_article <$> sample_articles)) as -> by reflexivity.
  intros Heq. discriminate Heq.
Qed.

Lemma list_endpoints_select_exactly_witness :
  list_articles (H:=reference) (Some sample_db) None (Some "Research") (Some "")
    (Some 5%Z)
  = Ok [returned_article (1%N, article "Cannabis basics" "basics" (Some "An overview")
                                 (Some "Research") ["cbd"])]
  ∧ list_articles (H:=reference) (Some sample_db) (Some "canna") None None
      (Some 5%Z)
    = Ok [returned_article (1%N, article "Cannabis basics" "basics"
                                   (Some "An overview") (Some "Research") ["cbd"])]
  ∧ list_doctors (H:=reference) (Some sample_db) None (Some "SP") None None None
      (Some (brl 200)) (Some 5%Z)
    = Ok [returned_doctor (3%N, doctor "Ana" ["neurology"] ["SP"] (Some (brl 150)))].
Proof.
  destruct (list_endpoints_select_exactly (H:=reference) sample_db
              sample_articles sample_doctors
              (Some "canna") (Some "Research") (Some "")
              None (Some "SP") None None None (Some (brl 200)) (Some 5%Z))
    as (Harts & _ & _ & Hdocs & _ & _).
  - reflexivity.
  - reflexivity.
  - simpl. lia.
  - destruct (list_endpoints_select_exactly (H:=reference) sample_db
                sample_articles sample_doctors
                (Some "canna") None None
                None None None None None None (Some 5%Z))
      as (_ & _ & Hq & _).
    + reflexivity.
    + reflexivity.
    + simpl. lia.
    + split_and!.
      * exact Harts.
      * apply Hq. intros s Hs. injection Hs as <-. by eexists.
      * apply Hdocs. simpl. discriminate.
Defined.

(** C2.  The handler hands [q] to the store as a pattern, not as a literal:
    with [q = "."] both sample articles are returned although no title or
    summary contains a dot, and with [q = "("] the read fails. *)
Theorem q_is_read_as_a_pattern :
  list_articles (H:=reference) (Some sample_db) (Some ".") None None None
  = Ok (returned_article <$> sample_articles)
  ∧ List.filter (λ r, article_selected (Some ".") None None r.2) sample_articles = []
  ∧ list_articles (H:=reference) (Some sample_db) (Some "(") None None None
    = Err StorageError.
Proof. split_and!; reflexivity. Qed.

(** C3, as stated, fails: a newsletter body with the undeclared field
    [admin] is accepted. *)
Lemma undeclared_field_is_accepted :
  ("admin" ∉ NewsletterSubscriber.model_fields)
  ∧ body_with_extra !! "admin" = Some (JBool true)
  ∧ (subscribe_newsletter (H:=reference) (Some sample_db) body_with_extra).2
    = Ok {| Created.status := "ok"; Created.id := "10" |}.
Proof.
  split_and!; [|reflexivity..].
  by apply (bool_decide_unpack _).
Qed.

Lemma undeclared_fields_are_ignored_witness :
  subscribe_newsletter (H:=reference) (Some sample_db)
    (<["admin" := JBool true]> {[ "email" := JStr "ana@example.com" ]})
  = subscribe_newsletter (H:=reference) (Some sample_db)
      {[ "email" := JStr "ana@example.com" ]}
  ∧ ∃ d' doc,
      (subscribe_newsletter (H:=reference) (Some sample_db)
         {[ "email" := JStr "ana@example.com" ]}).1 = Some d'
      ∧ last (collection d' "newslettersubscriber") = Some doc
      ∧ dom doc = {["_id"]} ∪ NewsletterSubscriber.model_fields.
Proof.
  destruct (undeclared_fields_are_ignored (H:=reference) (Some sample_db)
              {[ "email" := JStr "ana@example.com" ]} "admin" (JBool true))
    as (_ & Hsame & _ & Hrecord).
  split.
  - apply Hsame. by apply (bool_decide_unpack _).
  - eapply Hrecord. reflexivity.
Defined.

(** C4, as stated, fails: the article stored after 500 others has a
    non-empty slug and no entry in the sitemap. *)
Lemma article_beyond_500_has_no_entry :
  collection crowded_db "article" = stored_article <$> crowded_articles
  ∧ (500%N, article "Late" "late" None None []) ∈ crowded_articles
  ∧ ¬ occurs_in (url_line "https://example.com/articles/late")
        (sitemap (H:=reference) (Some crowded_db) None).
Proof.
  split_and!.
  - reflexivity.
  - apply elem_of_app. right. apply list_elem_of_here.
  - intros Hocc%contains_occurs. unfold sitemap in Hocc.
    rewrite (sitemap_urls_records crowded_db crowded_articles) in Hocc by reflexivity.
    vm_compute in Hocc. discriminate Hocc.
Qed.

Lemma sitemap_entries_witness :
  occurs_in (url_line "https://example.com/about")
    (sitemap (H:=reference) (Some sample_db) None)
  ∧ occurs_in (url_line "https://example.com/articles/basics")
      (sitemap (H:=reference) (Some sample_db) None)
  ∧ sitemap_urls (H:=reference) None "https://example.com"
    = (λ p, url_line ("https://example.com" +:+ p)) <$> static_paths.
Proof.
  destruct (sitemap_entries (H:=reference) (Some sample_db) None)
    as (Hstatic & Harticle & _).
  destruct (sitemap_entries (H:=reference) None None) as (_ & _ & Hfail).
  split_and!.
  - apply (Hstatic "/about"). by apply (bool_decide_unpack _).
  - apply (Harticle sample_db sample_articles
             (1%N, article "Cannabis basics" "basics" (Some "An overview")
                     (Some "Research") ["cbd"])).
    + reflexivity.
    + reflexivity.
    + apply list_elem_of_here.
    + discriminate.
  - apply (Hfail StorageError). reflexivity.
Defined.


Lemma get_article_or_not_found_witness :
  (∃ r, r ∈ sample_articles ∧ Article.slug r.2 = "abc"
        ∧ get_article (H:=reference) (Some sample_db) "abc" = Ok (returned_article r)
        ∧ returned_article r !! "slug" = Some (BStr "abc"))
  ∧ get_article (H:=reference) (Some sample_db) "missing"
    = Err (HTTPException 404 "Article not found")
  ∧ list_articles (H:=reference) (Some sample_db) None (Some "Events") None None
    = Ok [].
Proof.
  destruct (get_article_or_not_found (H:=reference) sample_db sample_articles "abc")
    as (Hfound & _); [reflexivity|].
  destruct (get_article_or_not_found (H:=reference) sample_db sample_articles
              "missing") as (_ & Hmissing & Hlist & _); [reflexivity|].
  split_and!.
  - apply Hfound. exists (2%N, article "abc" "abc" None (Some "Regulation") []).
    split; [|reflexivity]. apply list_elem_of_further, list_elem_of_here.
  - apply Hmissing. intros r Hr.
    repeat (apply elem_of_cons in Hr as [->|Hr]; [discriminate|]).
    by apply elem_of_nil in Hr.
  - apply Hlist.
    + exact I.
    + discriminate.
    + intros doc Hdoc.
      change (collection sample_db "article")
        with (stored_article <$> sample_articles) in Hdoc.
      repeat (apply elem_of_cons in Hdoc as [->|Hdoc]; [reflexivity|]).
      by apply elem_of_nil in Hdoc.
Defined.

Lemma price_max_threshold_witness :
  list_doctors (H:=reference) (Some sample_db) None (Some "SP") None None None
    (Some (brl 200)) None
  = Ok [returned_doctor (3%N, doctor "Ana" ["neurology"] ["SP"] (Some (brl 150)))]
  ∧ (∃ p, returned_doctor (3%N, doctor "Ana" ["neurology"] ["SP"] (Some (brl 150)))
            !! "price_from" = Some (BNum p) ∧ (p ≤ brl 200)%Qc)
  ∧ str_id (stored_doctor (4%N, doctor "Bia" ["neurology"] ["SP"] None))
    ∉ [returned_doctor (3%N, doctor "Ana" ["neurology"] ["SP"] (Some (brl 150)))].
Proof.
  destruct (price_max_threshold (H:=reference) (Some sample_db)
              None (Some "SP") None None None (brl 200) None
              [returned_doctor (3%N, doctor "Ana" ["neurology"] ["SP"]
                                  (Some (brl 150)))])
    as (Hall & Habsent); [reflexivity|].
  split_and!.
  - reflexivity.
  - apply Hall. apply list_elem_of_here.
  - apply (Habsent sample_db); [reflexivity| |by right].
    change (collection sample_db "doctor") with (stored_doctor <$> sample_doctors).
    apply list_elem_of_further, list_elem_of_here.
Defined.

Lemma invalid_payload_writes_nothing_witness :
  (∃ loc, create_appointment (H:=reference) (Some sample_db) body_without_name
          = (Some sample_db, Err (RequestValidationError loc)))
  ∧ (∃ loc, subscribe_newsletter (H:=reference) (Some sample_db) body_bad_email
            = (Some sample_db, Err (RequestValidationError loc))).
Proof.
  destruct (invalid_payload_writes_nothing (H:=reference) (Some sample_db)
              body_without_name) as (Hname & _).
  destruct (invalid_payload_writes_nothing (H:=reference) (Some sample_db)
              body_bad_email) as (_ & Hemail).
  split.
  - apply Hname. left. reflexivity.
  - apply Hemail. right. left. exists "ana.example.com". split; reflexivity.
Defined.

Lemma price_max_is_validated_witness :
  list_doctors (H:=reference) (Some sample_db) None None None None None
    (Some (brl (-1))) None
  = Err (RequestValidationError "price_max")
  ∧ (Some (brl 0) = None ∨ ∃ x, Some (brl 0) = Some x ∧ (0 ≤ x)%Qc).
Proof.
  destruct (price_max_is_validated (H:=reference) (Some sample_db)
              None None None None None (Some (brl (-1))) None) as (Hreject & _).
  destruct (price_max_is_validated (H:=reference) (Some sample_db)
              None None None None None (Some (brl 0)) None) as (_ & Haccept).
  split.
  - apply (Hreject (brl (-1))); reflexivity.
  - apply (Haccept []). reflexivity.
Defined.

(** * Further properties of the handlers *)

(** ** Outcomes of the list endpoints *)

Section Outcomes.
Context `{!Externals}.

Lemma limit_ok_dec (limit : option Z) : limit_ok limit ∨ ¬ limit_ok limit.
Proof.
  destruct limit as [l|]; simpl; [|by left].
  destruct (decide (1 ≤ l ≤ 100)%Z); [by left|by right].
Qed.

Lemma Query_int_not_ok (dflt : Z) name (limit : option Z) :
  ¬ limit_ok limit →
  Query_int dflt 1 100 name limit = Err (RequestValidationError name).
Proof.
  destruct limit as [l|]; simpl; [|done]. intros Hl. by rewrite bool_decide_eq_false_2.
Qed.

Lemma Query_float_not_ok name (price_max : option Qc) :
  ¬ price_max_ok price_max →
  Query_float 0 name price_max = Err (RequestValidationError name).
Proof.
  destruct price_max as [x|]; simpl; [|done]. intros Hx.
  by rewrite bool_decide_eq_false_2.
Qed.

Lemma price_max_ok_dec (price_max : option Qc) :
  price_max_ok price_max ∨ ¬ price_max_ok price_max.
Proof.
  destruct price_max as [x|]; simpl; [|by left].
  destruct (decide (0 ≤ x)%Qc); [by left|by right].
Qed.

(** The store accepts the filter of [list_articles] exactly when it
    accepts the pattern. *)
Lemma articles_filt_valid_value (q category tag : option string) :
  filter_valid (articles_filt q category tag)
  = supplied (effective q) (λ s, bool_decide (is_Some (regex_compile s "i"))).
Proof.
  unfold articles_filt.
  rewrite filter_valid_if_truthy
    by (rewrite !lookup_if_truthy by done; apply lookup_empty).
  rewrite filter_valid_if_truthy
    by (rewrite !lookup_if_truthy by done; apply lookup_empty).
  rewrite filter_valid_if_truthy by apply lookup_empty.
  rewrite (filter_valid_empty (H:=H)).
  destruct (effective tag), (effective category); simpl;
    destruct (effective q) as [pat|]; simpl; try done;
    rewrite !valid_singleton; simpl;
    by destruct (bool_decide (is_Some (regex_compile pat "i"))).
Qed.

(** X1.  [GET /doctors] ends in exactly one of three ways: a validation
    error when [price_max] is negative or [limit] is outside 1..100,
    whatever the state of the store; a storage error when the parameters
    are in range and the store cannot be reached; a list otherwise.  It
    never answers 404. *)
Theorem list_doctors_outcomes (db : store)
    (specialty state city pathology consultation_type : option string)
    (price_max : option Qc) (limit : option Z) :
  let r := list_doctors db specialty state city pathology consultation_type
             price_max limit in
  ((∃ loc, r = Err (RequestValidationError loc))
     ↔ ¬ (price_max_ok price_max ∧ limit_ok limit))
  ∧ (r = Err StorageError ↔ price_max_ok price_max ∧ limit_ok limit ∧ db = None)
  ∧ ((∃ res, r = Ok res) ↔ price_max_ok price_max ∧ limit_ok limit ∧ db ≠ None)
  ∧ (∀ code detail, r ≠ Err (HTTPException code detail)).
Proof.
  intros r. subst r. unfold list_doctors.
  destruct (price_max_ok_dec price_max) as [Hp|Hp].
  - destruct (limit_ok_dec limit) as [Hl|Hl].
    + rewrite (Query_float_in_range 0 "price_max" price_max Hp). cbn [mbind result_bind].
      rewrite (Query_int_in_range 50 1 100 "limit" limit Hl). cbn [mbind result_bind].
      unfold get_documents. destruct db as [d|].
      * rewrite doctors_filt_valid. split_and!.
        -- split; [by intros [? ?]|]. intros Hno. destruct Hno. done.
        -- split; [done|]. by intros (_ & _ & ?).
        -- split; [done|]. intros _. by eexists.
        -- done.
      * split_and!.
        -- split; [by intros [? ?]|]. intros Hno. destruct Hno. done.
        -- done.
        -- split; [by intros [? ?]|]. by intros (_ & _ & ?).
        -- done.
    + rewrite (Query_float_in_range 0 "price_max" price_max Hp). cbn [mbind result_bind].
      rewrite (Query_int_not_ok 50 "limit" limit Hl). cbn [mbind result_bind].
      split_and!.
      * split; [tauto|]. intros _. by eexists.
      * split; [done|]. tauto.
      * split; [by intros [? ?]|]. tauto.
      * done.
  - rewrite (Query_float_not_ok "price_max" price_max Hp). cbn [mbind result_bind].
    split_and!.
    + split; [tauto|]. intros _. by eexists.
    + split; [done|]. tauto.
    + split; [by intros [? ?]|]. tauto.
    + done.
Qed.

(** X2.  [GET /articles] ends in exactly one of three ways: a validation
    error when [limit] is outside 1..100; a storage error when [limit] is
    in range and either the store cannot be reached or it rejects a
    non-empty [q] as a pattern; a list otherwise.  It never answers 404. *)
Theorem list_articles_outcomes (db : store) (q category tag : option string)
    (limit : option Z) :
  let r := list_articles db q category tag limit in
  let accepted := ∀ s, effective q = Some s → is_Some (regex_compile s "i") in
  ((∃ loc, r = Err (RequestValidationError loc)) ↔ ¬ limit_ok limit)
  ∧ (r = Err StorageError ↔ limit_ok limit ∧ (db = None ∨ ¬ accepted))
  ∧ ((∃ res, r = Ok res) ↔ limit_ok limit ∧ db ≠ None ∧ accepted)
  ∧ (∀ code detail, r ≠ Err (HTTPException code detail)).
Proof.
  intros r accepted. subst r. unfold list_articles.
  assert (filter_valid (articles_filt q category tag) = true ↔ accepted) as Hvalid.
  { rewrite articles_filt_valid_value. unfold accepted.
    destruct (effective q) as [pat|]; simpl.
    - rewrite bool_decide_eq_true. split; [by intros ? ? [= <-]|auto].
    - split; [by intros _ ? ?|done]. }
  destruct (limit_ok_dec limit) as [Hl|Hl].
  - rewrite (Query_int_in_range 20 1 100 "limit" limit Hl). cbn [mbind result_bind].
    unfold get_documents. destruct db as [d|].
    + destruct (filter_valid (articles_filt q category tag)) eqn:Hv.
      * assert accepted as Hacc by (by apply Hvalid). split_and!.
        -- split; [by intros [? ?]|done].
        -- split; [done|]. intros (_ & [?|?]); done.
        -- split; [done|]. intros _. by eexists.
        -- done.
      * assert (¬ accepted) by (by intros ?%Hvalid). split_and!.
        -- split; [by intros [? ?]|done].
        -- split; [|done]. intros _. split; [done|by right].
        -- split; [by intros [? ?]|]. by intros (_ & _ & ?).
        -- done.
    + split_and!.
      * split; [by intros [? ?]|done].
      * split; [|done]. intros _. split; [done|by left].
      * split; [by intros [? ?]|]. by intros (_ & ? & _).
      * done.
  - rewrite (Query_int_not_ok 20 "limit" limit Hl). cbn [mbind result_bind].
    split_and!.
    + split; [done|]. intros _. by eexists.
    + split; [done|]. tauto.
    + split; [by intros [? ?]|]. tauto.
    + done.
Qed.

End Outcomes.

(** ** What the list endpoints return *)

Section Returned.
Context `{!Externals}.

Lemma lookup_if_truthy_eq p k (mk : string → clause) (filt : query) :
  if_truthy p (λ s, <[k := mk s]>) filt !! k
  = match effective p with Some s => Some (mk s) | None => filt !! k end.
Proof. destruct p as [[|c s]|]; simpl; try done. by rewrite lookup_insert_eq. Qed.

Lemma In_holds_value (s : string) (v : option bson) :
  cond_holds (In [s]) v = true → holds_value v s.
Proof.
  destruct v as [[]|]; simpl; try done.
  - intros Hin%bool_decide_eq_true. apply list_elem_of_singleton in Hin. subst. by left.
  - rewrite In_singleton_holds. intros Hin%bool_decide_eq_true. right. by eexists.
Qed.

Lemma Eq_holds_value (s : string) (v : option bson) :
  cond_holds (Eq s) v = true → holds_value v s.
Proof.
  destruct v as [[]|]; simpl; try done.
  - intros ->%bool_decide_eq_true. by left.
  - intros Hin%bool_decide_eq_true. right. by eexists.
Qed.

Ltac filt_lookup Heff :=
  repeat first
    [ rewrite lookup_insert_ne by done
    | rewrite lookup_if_truthy by done
    | rewrite lookup_if_truthy_eq, Heff ].

(** X3.  Every document that [GET /doctors] returns is a document of the
    doctor collection, and for each of [specialty], [state], [city],
    [pathology] and [consultation_type] that is supplied and not empty, its
    field holds the value, whatever the shape of the stored documents. *)
Theorem list_doctors_sound (db : store)
    (specialty state city pathology consultation_type : option string)
    (price_max : option Qc) (limit : option Z) (res : list document) :
  list_doctors db specialty state city pathology consultation_type price_max limit
  = Ok res →
  ∀ doc, doc ∈ res →
    (∃ d doc0, db = Some d ∧ doc0 ∈ collection d "doctor" ∧ doc = str_id doc0)
    ∧ (∀ s, effective specialty = Some s → holds_value (doc !! "specialties") s)
    ∧ (∀ s, effective state = Some s → holds_value (doc !! "states") s)
    ∧ (∀ s, effective city = Some s → holds_value (doc !! "cities") s)
    ∧ (∀ s, effective pathology = Some s → holds_value (doc !! "pathologies") s)
    ∧ (∀ s, effective consultation_type = Some s →
            holds_value (doc !! "consultation_types") s).
Proof.
  intros [n Hres]%list_doctors_Ok doc
    (d & doc0 & -> & Hin & Hm & ->)%(get_documents_elem _ _ _ _ _ _ Hres).
  split; [by exists d, doc0|].
  split_and!; intros s Heff; rewrite str_id_lookup_ne by done;
    apply In_holds_value;
    match goal with |- cond_holds ?c (doc0 !! ?k) = true =>
      apply (matches_lookup _ k (Field c) _ Hm) end;
    unfold doctors_filt; destruct price_max; by filt_lookup Heff.
Qed.

Lemma list_articles_Ok db q category tag limit res :
  list_articles db q category tag limit = Ok res →
  ∃ n, get_documents db "article" (articles_filt q category tag) n = Ok res.
Proof.
  unfold list_articles.
  destruct (Query_int 20 1 100 "limit" limit) as [n|]; [|done]. by exists n.
Qed.

(** X4.  Every document that [GET /articles] returns is a document of the
    article collection whose [category] holds the supplied non-empty
    [category] and whose [tags] hold the supplied non-empty [tag],
    whatever the shape of the stored documents. *)
Theorem list_articles_sound (db : store) (q category tag : option string)
    (limit : option Z) (res : list document) :
  list_articles db q category tag limit = Ok res →
  ∀ doc, doc ∈ res →
    (∃ d doc0, db = Some d ∧ doc0 ∈ collection d "article" ∧ doc = str_id doc0)
    ∧ (∀ s, effective category = Some s → holds_value (doc !! "category") s)
    ∧ (∀ s, effective tag = Some s → holds_value (doc !! "tags") s).
Proof.
  intros [n Hres]%list_articles_Ok doc
    (d & doc0 & -> & Hin & Hm & ->)%(get_documents_elem _ _ _ _ _ _ Hres).
  split; [by exists d, doc0|].
  split; intros s Heff; rewrite str_id_lookup_ne by done.
  - apply Eq_holds_value.
    apply (matches_lookup _ "category" (Field (Eq s)) _ Hm).
    unfold articles_filt. by filt_lookup Heff.
  - apply In_holds_value.
    apply (matches_lookup _ "tags" (Field (In [s])) _ Hm).
    unfold articles_filt. by filt_lookup Heff.
Qed.

Lemma take_1_filter {A} (P : A → bool) (l : list A) :
  take 1 (List.filter P l) = option_list (List.find P l).
Proof.
  induction l as [|x l IH]; [done|]. simpl. destruct (P x); [|done].
  simpl. by rewrite take_0.
Qed.

(** X5.  On a store of article records, [GET /articles/{slug}] returns the
    first article in storage order whose slug is the parameter, also when
    several articles share the slug, and 404 when there is none; when the
    store cannot be reached it fails with a storage error, not with 404. *)
Theorem get_article_first_match (d : database) (arts : list (N * Article.t))
    (slug : string) :
  collection d "article" = stored_article <$> arts →
  get_article (Some d) slug
  = match List.find (λ r, bool_decide (Article.slug r.2 = slug)) arts with
    | Some r => Ok (returned_article r)
    | None => Err (HTTPException 404 "Article not found")
    end
  ∧ get_article None slug = Err StorageError.
Proof.
  intros Hcoll. split; [|done]. unfold get_article.
  rewrite (get_article_read d arts) by done. cbn [mbind result_bind].
  rewrite take_1_filter. by destruct (List.find _ arts).
Qed.

(** X6.  A smaller [limit] gives a prefix of what a larger one gives: for
    [1 ≤ l1 ≤ l2 ≤ 100], the answer of either list endpoint with [limit = l1]
    is the first [l1] records of its answer with [limit = l2]. *)
Theorem smaller_limit_is_a_prefix (db : store)
    (q category tag specialty state city pathology consultation_type : option string)
    (price_max : option Qc) (l1 l2 : Z) :
  (1 ≤ l1 ≤ l2)%Z → (l2 ≤ 100)%Z →
  (∀ res, list_articles db q category tag (Some l2) = Ok res →
          list_articles db q category tag (Some l1) = Ok (take (Z.to_nat l1) res))
  ∧ (∀ res, list_doctors db specialty state city pathology consultation_type
              price_max (Some l2) = Ok res →
            list_doctors db specialty state city pathology consultation_type
              price_max (Some l1) = Ok (take (Z.to_nat l1) res)).
Proof.
  intros Hl1 Hl2.
  assert (∀ name filt res,
            get_documents db name filt l2 = Ok res →
            get_documents db name filt l1 = Ok (take (Z.to_nat l1) res)) as Hread.
  { intros name filt res (d & -> & Hv & ->)%get_documents_Ok.
    unfold get_documents. rewrite Hv. f_equal.
    rewrite <-fmap_take, take_take. do 2 f_equal. lia. }
  split; intros res.
  - unfold list_articles.
    rewrite (Query_int_in_range 20 1 100 "limit" (Some l2)),
      (Query_int_in_range 20 1 100 "limit" (Some l1)) by (simpl; lia).
    apply Hread.
  - unfold list_doctors.
    destruct (Query_float 0 "price_max" price_max) as [x|]; [|done].
    cbn [mbind result_bind].
    rewrite (Query_int_in_range 50 1 100 "limit" (Some l2)),
      (Query_int_in_range 50 1 100 "limit" (Some l1)) by (simpl; lia).
    apply Hread.
Qed.

Lemma lower_string_nil (q : string) : lower_string q = "" → q = "".
Proof. by destruct q. Qed.

(** X7.  The text search ignores the case of [q]: on a store of article
    records, two values of [q] made of ordinary characters that differ
    only in the case of their letters give the same answer. *)
Theorem q_case_is_ignored (d : database) (arts : list (N * Article.t))
    (q1 q2 : string) (category tag : option string) (limit : option Z) :
  literal_engine →
  collection d "article" = stored_article <$> arts →
  plain q1 = true → plain q2 = true →
  lower_string q1 = lower_string q2 →
  list_articles (Some d) (Some q1) category tag limit
  = list_articles (Some d) (Some q2) category tag limit.
Proof.
  intros Hlit Hcoll Hq1 Hq2 Hlow.
  destruct (limit_ok_dec limit) as [Hl|Hl].
  - rewrite !(list_articles_exact d arts) by done. do 3 f_equal.
    apply filter_ext_bool. intros r. unfold article_selected. do 2 f_equal.
    destruct q1 as [|a q1], q2 as [|b q2]; try done.
    simpl. unfold icontains. by rewrite Hlow.
  - unfold list_articles. by rewrite !Query_int_not_ok.
Qed.

End Returned.

(** ** Sitemap, robots, diagnostics and schema discovery *)

Section Seo.
Context `{!Externals}.

Lemma article_urls_length (base : string) (a : document) :
  (length (article_urls base a) ≤ 1)%nat.
Proof.
  unfold article_urls. destruct (a !! "slug") as [v|]; [|simpl; lia].
  destruct (py_truthy v); simpl; lia.
Qed.

Lemma bind_article_urls_length (base : string) (articles : list document) :
  (length (articles ≫= article_urls base) ≤ length articles)%nat.
Proof.
  induction articles as [|a l IH]; [done|].
  rewrite bind_cons, length_app. simpl.
  pose proof (article_urls_length base a). lia.
Qed.

(** X8.  Whatever the store holds, the url lines of the sitemap begin with
    the eight static lines in their order and number between 8 and 508; on
    a store of article records they are the static lines followed by one
    line for each article with a non-empty slug among the first 500, in
    storage order and with repetitions. *)
Theorem sitemap_lines (db : store) (base : string) :
  take 8 (sitemap_urls db base) = (λ p, url_line (base +:+ p)) <$> static_paths
  ∧ (8 ≤ length (sitemap_urls db base) ≤ 508)%nat
  ∧ (∀ d arts, db = Some d → collection d "article" = stored_article <$> arts →
       sitemap_urls db base
       = (((λ p, url_line (base +:+ p)) <$> static_paths)
          ++ (take 500 arts ≫= record_urls base))%list).
Proof.
  split; [|split].
  - unfold sitemap_urls. destruct (get_documents db "article" ∅ 500); [|done].
    by apply take_app_length'.
  - unfold sitemap_urls.
    destruct (get_documents db "article" ∅ 500) as [articles|] eqn:Hread.
    + apply get_documents_length in Hread; [|lia].
      pose proof (bind_article_urls_length base articles).
      rewrite length_app, length_fmap. simpl. lia.
    + rewrite length_fmap. simpl. lia.
  - intros d arts -> Hcoll. by apply sitemap_urls_records.
Qed.


End Seo.

(** X10.  The diagnostics report always says that the backend runs.  It
    says [Connected] exactly when the store handle exists and listing the
    collections succeeds, and then carries the listed names; otherwise the
    list of collections is empty.  Without a store handle the url and the
    name are reported as not set whatever the environment holds.  When
    listing raises, the report quotes at most the first 100 characters of
    the message. *)
Theorem test_database_report (env : gmap string string) (db : store)
    (list_collection_names : database → list string + list string) :
  let s := test_database env db list_collection_names in
  Status.backend s = "✅ Running"
  ∧ (Status.connection_status s = "Connected"
     ↔ ∃ d names, db = Some d ∧ list_collection_names d = inr names)
  ∧ (∀ d names, db = Some d → list_collection_names d = inr names →
       Status.collections s = names)
  ∧ (Status.connection_status s ≠ "Connected" → Status.collections s = [])
  ∧ (db = None →
       Status.database_url s = "❌ Not Set" ∧ Status.database_name s = "❌ Not Set")
  ∧ (∀ d v, db = Some d → env !! "DATABASE_NAME" = Some v → v ≠ "" →
       Status.database_name s = v)
  ∧ (∀ d e, db = Some d → list_collection_names d = inl e →
       ∃ msg rest, Status.database s = "⚠️ Connected but error: " +:+ join "" msg
                   ∧ (length msg ≤ 100)%nat ∧ e = (msg ++ rest)%list).
Proof.
  intros s. subst s. unfold test_database. split_and!.
  - destruct db as [d|]; [|done]. by destruct (list_collection_names d).
  - destruct db as [d|].
    + destruct (list_collection_names d) as [e|names] eqn:Hlist; simpl.
      * split; [done|]. intros (d' & names & [= <-] & Hnames). congruence.
      * split; [|done]. intros _. by exists d, names.
    + split; [done|]. by intros (d & names & ? & _).
  - intros d names -> Hlist. by rewrite Hlist.
  - destruct db as [d|]; [|done].
    by destruct (list_collection_names d).
  - by intros ->.
  - intros d v -> Hv Hne. rewrite Hv.
    destruct v as [|c v]; [done|]. by destruct (list_collection_names d).
  - intros d e -> Hlist. rewrite Hlist. simpl.
    exists (take 100 e), (drop 100 e).
    split_and!; [done|rewrite length_take; lia|by rewrite take_drop].
Qed.

(** X11.  [GET /schema] lists the four schemas under their lower-cased
    class names, and the field names it lists for each are exactly the keys
    of the documents that the schema dumps. *)
Theorem get_schema_matches_models (annotation_str : annotation → string)
    (doc : Doctor.t) (art : Article.t) (req : AppointmentRequest.t)
    (sub : NewsletterSubscriber.t) :
  (λ c, (CollectionSchema.collection c,
         list_to_set (SchemaField.name <$> CollectionSchema.fields c)))
    <$> get_schema annotation_str
  = [ ("doctor", dom (Doctor.model_dump doc));
      ("article", dom (Article.model_dump art));
      ("appointmentrequest", dom (AppointmentRequest.model_dump req));
      ("newslettersubscriber", dom (NewsletterSubscriber.model_dump sub)) ].
Proof.
  unfold Doctor.model_dump, Article.model_dump, AppointmentRequest.model_dump,
    NewsletterSubscriber.model_dump.
  rewrite !dom_insert_L, !dom_empty_L. reflexivity.
Qed.

(** ** Validation of request bodies *)

Section Validation.
Context `{!Externals}.

Lemma bind_Ok {A B} (m : result A) (k : A → result B) (r : B) :
  m ≫= k = Ok r ↔ ∃ a, m = Ok a ∧ k a = Ok r.
Proof.
  destruct m as [a|e]; cbn [mbind result_bind].
  - split; [by exists a|by intros (? & [= <-] & ?)].
  - split; [done|by intros (? & ? & _)].
Qed.

Lemma required_Ok {A} name (validate : json → option A) body a :
  required name validate body = Ok a
  ↔ ∃ j, body !! name = Some j ∧ validate j = Some a.
Proof.
  unfold required. destruct (body !! name) as [j|].
  - destruct (validate j) as [a'|] eqn:Hv.
    + split.
      * intros Heq. injection Heq as <-. by exists j.
      * intros (j' & Hj' & Hv'). by simplify_eq.
    + split; [done|]. intros (j' & Hj' & Hv'). by simplify_eq.
  - split; [done|by intros (? & ? & _)].
Qed.

Lemma defaulted_Ok {A} name (dflt : A) (validate : json → option A) body a :
  defaulted name dflt validate body = Ok a
  ↔ (body !! name = None ∧ a = dflt)
    ∨ ∃ j, body !! name = Some j ∧ validate j = Some a.
Proof.
  unfold defaulted. destruct (body !! name) as [j|].
  - destruct (validate j) as [a'|] eqn:Hv.
    + split.
      * intros Heq. injection Heq as <-. right. by exists j.
      * intros [[? _]|(j' & Hj' & Hv')]; [done|by simplify_eq].
    + split; [done|]. intros [[? _]|(j' & Hj' & Hv')]; [done|by simplify_eq].
  - split.
    + intros Heq. injection Heq as <-. by left.
    + intros [[_ ->]|(? & ? & _)]; done.
Qed.

Lemma as_str_Some j s : as_str j = Some s ↔ j = JStr s.
Proof. destruct j; simpl; split; intros; by simplify_eq. Qed.

Lemma as_str_list_Some j l : as_str_list j = Some l ↔ j = JArr (JStr <$> l).
Proof.
  destruct j as [| | | |items|]; simpl; try (split; intros; by simplify_eq).
  split.
  - intros Hm. f_equal. apply (mapM_fmap_Some_inv as_str JStr) in Hm; [done|].
    intros x y. by intros ->%as_str_Some.
  - intros [= ->]. by apply mapM_fmap_Some.
Qed.

Lemma str_field_Ok name body s :
  required name as_str body = Ok s ↔ body !! name = Some (JStr s).
Proof.
  rewrite required_Ok. split.
  - by intros (j & -> & ->%as_str_Some).
  - intros Hb. by exists (JStr s).
Qed.

Lemma email_field_Ok name body e :
  required name (λ j, as_str j ≫= EmailStr) body = Ok e
  ↔ email_field (body !! name) e.
Proof.
  rewrite required_Ok. unfold email_field. split.
  - intros (j & -> & Hj). destruct j; simpl in Hj; try done. by eexists.
  - intros (s & -> & Hs). by exists (JStr s).
Qed.

Lemma optional_field_Ok name body o :
  defaulted name None as_opt_str body = Ok o ↔ optional_field (body !! name) o.
Proof.
  rewrite defaulted_Ok. unfold optional_field. split.
  - intros [[-> ->]|(j & -> & Hj)]; [by left|].
    destruct j; simpl in Hj; simplify_eq; [by right; left|right; right; by eexists].
  - intros [[-> ->]|[[-> ->]|(s & -> & ->)]]; [by left|right..]; by eexists.
Qed.

Lemma list_field_Ok name body l :
  defaulted name [] as_str_list body = Ok l ↔ list_field (body !! name) l.
Proof.
  rewrite defaulted_Ok. unfold list_field. split.
  - intros [[-> ->]|(j & -> & ->%as_str_list_Some)]; [by left|by right].
  - intros [[-> ->] | ->]; [by left|]. right. eexists. split; [done|].
    by apply as_str_list_Some.
Qed.

(** What an accepted appointment body holds. *)
Lemma appointment_validate_Ok body m :
  AppointmentRequest.model_validate body = Ok m
  ↔ body !! "patient_name" = Some (JStr (AppointmentRequest.patient_name m))
    ∧ email_field (body !! "email") (AppointmentRequest.email m)
    ∧ body !! "phone" = Some (JStr (AppointmentRequest.phone m))
    ∧ body !! "pathology" = Some (JStr (AppointmentRequest.pathology m))
    ∧ optional_field (body !! "consultation_type")
        (AppointmentRequest.consultation_type m)
    ∧ list_field (body !! "preferred_dates") (AppointmentRequest.preferred_dates m)
    ∧ optional_field (body !! "state") (AppointmentRequest.state m)
    ∧ optional_field (body !! "city") (AppointmentRequest.city m)
    ∧ optional_field (body !! "doctor_id") (AppointmentRequest.doctor_id m)
    ∧ optional_field (body !! "notes") (AppointmentRequest.notes m).
Proof.
  unfold AppointmentRequest.model_validate. split.
  - intros Hv.
    repeat (apply bind_Ok in Hv as (? & ? & Hv)). injection Hv as <-. simpl.
    split_and!;
      first [by apply str_field_Ok|by apply email_field_Ok
            |by apply optional_field_Ok|by apply list_field_Ok].
  - destruct m. simpl.
    intros (H1%str_field_Ok & H2%email_field_Ok & H3%str_field_Ok & H4%str_field_Ok
            & H5%optional_field_Ok & H6%list_field_Ok & H7%optional_field_Ok
            & H8%optional_field_Ok & H9%optional_field_Ok & H10%optional_field_Ok).
    by rewrite H1, H2, H3, H4, H5, H6, H7, H8, H9, H10.
Qed.

Lemma newsletter_validate_Ok body m :
  NewsletterSubscriber.model_validate body = Ok m
  ↔ email_field (body !! "email") (NewsletterSubscriber.email m)
    ∧ list_field (body !! "interests") (NewsletterSubscriber.interests m).
Proof.
  unfold NewsletterSubscriber.model_validate. split.
  - intros Hv.
    repeat (apply bind_Ok in Hv as (? & ? & Hv)). injection Hv as <-. simpl.
    split; [by apply email_field_Ok|by apply list_field_Ok].
  - destruct m. simpl. intros (H1%email_field_Ok & H2%list_field_Ok).
    by rewrite H1, H2.
Qed.

(** X12.  What the two write endpoints accept: a body validates to a
    record exactly when each required [str] field is present as a string
    with the record's value, [email] is a string whose checked address is
    the record's, each [Optional[str]] field is absent, null or a string,
    and each [List[str]] field is absent or a list of strings, the absent
    ones giving [None] and the empty list. *)
Theorem accepted_bodies (body : gmap string json) :
  (∀ m, AppointmentRequest.model_validate body = Ok m
     ↔ body !! "patient_name" = Some (JStr (AppointmentRequest.patient_name m))
       ∧ email_field (body !! "email") (AppointmentRequest.email m)
       ∧ body !! "phone" = Some (JStr (AppointmentRequest.phone m))
       ∧ body !! "pathology" = Some (JStr (AppointmentRequest.pathology m))
       ∧ optional_field (body !! "consultation_type")
           (AppointmentRequest.consultation_type m)
       ∧ list_field (body !! "preferred_dates")
           (AppointmentRequest.preferred_dates m)
       ∧ optional_field (body !! "state") (AppointmentRequest.state m)
       ∧ optional_field (body !! "city") (AppointmentRequest.city m)
       ∧ optional_field (body !! "doctor_id") (AppointmentRequest.doctor_id m)
       ∧ optional_field (body !! "notes") (AppointmentRequest.notes m))
  ∧ (∀ m, NewsletterSubscriber.model_validate body = Ok m
       ↔ email_field (body !! "email") (NewsletterSubscriber.email m)
         ∧ list_field (body !! "interests") (NewsletterSubscriber.interests m)).
Proof.
  split; intros m; [apply appointment_validate_Ok|apply newsletter_validate_Ok].
Qed.

Lemma optional_field_json_opt (o : option string) :
  optional_field (Some (json_opt o)) o.
Proof. destruct o as [s|]; [right; right; by exists s|right; by left]. Qed.

(** X13.  A record whose address the address check leaves unchanged
    validates, from the body that carries its fields, to itself. *)
Theorem resubmitted_record_is_accepted (req : AppointmentRequest.t)
    (sub : NewsletterSubscriber.t) :
  EmailStr (AppointmentRequest.email req) = Some (AppointmentRequest.email req) →
  EmailStr (NewsletterSubscriber.email sub) = Some (NewsletterSubscriber.email sub) →
  AppointmentRequest.model_validate (appointment_body req) = Ok req
  ∧ NewsletterSubscriber.model_validate (newsletter_body sub) = Ok sub.
Proof.
  intros Hreq Hsub. split.
  - apply appointment_validate_Ok.
    split_and!; try reflexivity;
      first [by eexists|apply optional_field_json_opt|by right].
  - apply newsletter_validate_Ok. split; [by eexists|by right].
Qed.

Lemma required_delete_ne {A} name (validate : json → option A) k
    (body : gmap string json) :
  k ≠ name → required name validate (delete k body) = required name validate body.
Proof. intros Hk. unfold required. by rewrite lookup_delete_ne. Qed.

Lemma defaulted_delete_ne {A} name (dflt : A) (validate : json → option A) k
    (body : gmap string json) :
  k ≠ name →
  defaulted name dflt validate (delete k body) = defaulted name dflt validate body.
Proof. intros Hk. unfold defaulted. by rewrite lookup_delete_ne. Qed.

Lemma defaulted_delete_null name (body : gmap string json) :
  body !! name = Some JNull →
  defaulted name None as_opt_str (delete name body)
  = defaulted name None as_opt_str body.
Proof. intros Hnull. unfold defaulted. by rewrite lookup_delete_eq, Hnull. Qed.

(** X14.  Edge cases of the appointment body: a [patient_name] that is not
    a string is refused, as are a null [preferred_dates] and a
    [preferred_dates] with an element that is not a string; a null in an
    [Optional[str]] field is read as the field being absent. *)
Theorem appointment_field_types (body : gmap string json) :
  (∀ j, body !! "patient_name" = Some j → (∀ s, j ≠ JStr s) →
        ∃ e, AppointmentRequest.model_validate body = Err e)
  ∧ (body !! "preferred_dates" = Some JNull →
       ∃ e, AppointmentRequest.model_validate body = Err e)
  ∧ (∀ items j, body !! "preferred_dates" = Some (JArr items) →
                j ∈ items → (∀ s, j ≠ JStr s) →
                ∃ e, AppointmentRequest.model_validate body = Err e)
  ∧ (∀ k, k ∈ ["consultation_type"; "state"; "city"; "doctor_id"; "notes"] →
          body !! k = Some JNull →
          AppointmentRequest.model_validate body
          = AppointmentRequest.model_validate (delete k body)).
Proof.
  split_and!.
  - intros j Hj Hne.
    destruct (AppointmentRequest.model_validate body) as [m|e] eqn:Hv; [|by eexists].
    apply appointment_validate_Ok in Hv as (Hname & _).
    rewrite Hj in Hname. injection Hname as ->.
    by destruct (Hne (AppointmentRequest.patient_name m)).
  - intros Hnull.
    destruct (AppointmentRequest.model_validate body) as [m|e] eqn:Hv; [|by eexists].
    apply appointment_validate_Ok in Hv as (_ & _ & _ & _ & _ & Hdates & _).
    rewrite Hnull in Hdates. by destruct Hdates as [[? _]|?].
  - intros items j Hitems Hin Hne.
    destruct (AppointmentRequest.model_validate body) as [m|e] eqn:Hv; [|by eexists].
    apply appointment_validate_Ok in Hv as (_ & _ & _ & _ & _ & Hdates & _).
    rewrite Hitems in Hdates. destruct Hdates as [[? _]|Heq]; [done|].
    injection Heq as ->. apply list_elem_of_fmap in Hin as (s & -> & _).
    by destruct (Hne s).
  - intros k Hk Hnull. unfold AppointmentRequest.model_validate.
    repeat (apply elem_of_cons in Hk as [->|Hk];
      [by rewrite !required_delete_ne, ?defaulted_delete_ne,
            defaulted_delete_null, ?defaulted_delete_ne by done|]).
    by apply elem_of_nil in Hk.
Qed.

Lemma required_agree {A} name (validate : json → option A)
    (body body' : gmap string json) :
  body !! name = body' !! name →
  required name validate body = required name validate body'.
Proof. intros Heq. unfold required. by rewrite Heq. Qed.

Lemma defaulted_agree {A} name (dflt : A) (validate : json → option A)
    (body body' : gmap string json) :
  body !! name = body' !! name →
  defaulted name dflt validate body = defaulted name dflt validate body'.
Proof. intros Heq. unfold defaulted. by rewrite Heq. Qed.

(** X15.  The write endpoints read nothing of a body but the declared
    fields of their schema: two bodies that agree on those fields are
    treated alike, whatever else they contain. *)
Theorem only_declared_fields_are_read (db : store) (body body' : gmap string json) :
  ((∀ k, k ∈ AppointmentRequest.model_fields → body !! k = body' !! k) →
     create_appointment db body = create_appointment db body')
  ∧ ((∀ k, k ∈ NewsletterSubscriber.model_fields → body !! k = body' !! k) →
       subscribe_newsletter db body = subscribe_newsletter db body').
Proof.
  assert (∀ (k : string) (l : list string), k ∈ l → k ∈ (list_to_set l : gset string))
    as Hlist by (intros k l Hk; by apply elem_of_list_to_set).
  split; intros Hagree.
  - unfold create_appointment, AppointmentRequest.model_validate.
    rewrite (required_agree "patient_name" _ body body'),
      (required_agree "email" _ body body'),
      (required_agree "phone" _ body body'),
      (required_agree "pathology" _ body body'),
      (defaulted_agree "consultation_type" _ _ body body'),
      (defaulted_agree "preferred_dates" _ _ body body'),
      (defaulted_agree "state" _ _ body body'),
      (defaulted_agree "city" _ _ body body'),
      (defaulted_agree "doctor_id" _ _ body body'),
      (defaulted_agree "notes" _ _ body body');
      try done; apply Hagree, Hlist;
      repeat first [apply list_elem_of_here|apply list_elem_of_further].
  - unfold subscribe_newsletter, NewsletterSubscriber.model_validate.
    rewrite (required_agree "email" _ body body'),
      (defaulted_agree "interests" _ _ body body');
      try done; apply Hagree, Hlist;
      repeat first [apply list_elem_of_here|apply list_elem_of_further].
Qed.

End Validation.

(** ** Writes and the reads that follow them *)

Section Writes.
Context `{!Externals}.

(** What a write endpoint does once the body has validated. *)
Lemma create_document_result (db : store) name data :
  create_document db name data
  = match db with
    | None => (None, Err StorageError)
    | Some d =>
        (Some {| collections :=
                   <[name := (collection d name ++ [stored (next_oid d) data])%list]>
                     (collections d);
                 next_oid := N.succ (next_oid d) |},
         Ok (pretty (next_oid d)))
    end.
Proof. by destruct db. Qed.

Lemma read_whole_collection (d : database) name (n : Z) :
  (Z.of_nat (length (collection d name)) ≤ n)%Z →
  get_documents (Some d) name ∅ n = Ok (str_id <$> collection d name).
Proof.
  intros Hn. unfold get_documents. rewrite (filter_valid_empty (H:=H)).
  rewrite filter_all by apply matches_empty.
  rewrite take_ge by lia. done.
Qed.

(** Reads of a collection see nothing of a write to another one. *)
Lemma create_document_frame (db : store) name data other filt limit :
  other ≠ name →
  get_documents (create_document db name data).1 other filt limit
  = get_documents db other filt limit.
Proof.
  intros Hne. rewrite create_document_result. destruct db as [d|]; [|done].
  unfold get_documents, collection. simpl. by rewrite lookup_total_insert_ne.
Qed.

Lemma create_appointment_store (db : store) body :
  (create_appointment db body).1
  = match AppointmentRequest.model_validate body with
    | Ok req => (create_document db "appointmentrequest"
                   (AppointmentRequest.model_dump req)).1
    | Err _ => db
    end.
Proof.
  unfold create_appointment.
  destruct (AppointmentRequest.model_validate body); [|done].
  by destruct (create_document _ _ _).
Qed.

Lemma subscribe_newsletter_store (db : store) body :
  (subscribe_newsletter db body).1
  = match NewsletterSubscriber.model_validate body with
    | Ok sub => (create_document db "newslettersubscriber"
                   (NewsletterSubscriber.model_dump sub)).1
    | Err _ => db
    end.
Proof.
  unfold subscribe_newsletter.
  destruct (NewsletterSubscriber.model_validate body); [|done].
  by destruct (create_document _ _ _).
Qed.

(** X16.  After a successful [POST /appointment] or [POST /newsletter],
    reading the whole collection gives, in some order, the records that
    were there and the new one: the dump of the validated body under the
    identifier that the response carries.  The response has status [ok]. *)
Theorem written_record_is_read_back (d : database) (body : gmap string json) :
  (∀ db' c, create_appointment (Some d) body = (db', Ok c) →
     ∃ m res, AppointmentRequest.model_validate body = Ok m
       ∧ Created.status c = "ok"
       ∧ get_documents db' "appointmentrequest" ∅
           (Z.of_nat (length (collection d "appointmentrequest")) + 1)
         = Ok res
       ∧ res ≡ₚ <["_id" := BStr (Created.id c)]> (AppointmentRequest.model_dump m)
                :: (str_id <$> collection d "appointmentrequest"))
  ∧ (∀ db' c, subscribe_newsletter (Some d) body = (db', Ok c) →
       ∃ m res, NewsletterSubscriber.model_validate body = Ok m
         ∧ Created.status c = "ok"
         ∧ get_documents db' "newslettersubscriber" ∅
             (Z.of_nat (length (collection d "newslettersubscriber")) + 1)
           = Ok res
         ∧ res ≡ₚ <["_id" := BStr (Created.id c)]>
                    (NewsletterSubscriber.model_dump m)
                  :: (str_id <$> collection d "newslettersubscriber")).
Proof.
  split; intros db' c.
  - unfold create_appointment.
    destruct (AppointmentRequest.model_validate body) as [m|]; [|done].
    rewrite create_document_result. cbn [mbind result_bind]. intros [= <- <-].
    exists m. eexists. split_and!; [done..| |].
    + rewrite read_whole_collection; [done|].
      unfold collection at 1. simpl. rewrite lookup_total_insert_eq.
      rewrite length_app. simpl. lia.
    + unfold collection at 1. simpl. rewrite lookup_total_insert_eq.
      rewrite fmap_app, fmap_cons, str_id_stored. simpl.
      symmetry. apply Permutation_cons_append.
  - unfold subscribe_newsletter.
    destruct (NewsletterSubscriber.model_validate body) as [m|]; [|done].
    rewrite create_document_result. cbn [mbind result_bind]. intros [= <- <-].
    exists m. eexists. split_and!; [done..| |].
    + rewrite read_whole_collection; [done|].
      unfold collection at 1. simpl. rewrite lookup_total_insert_eq.
      rewrite length_app. simpl. lia.
    + unfold collection at 1. simpl. rewrite lookup_total_insert_eq.
      rewrite fmap_app, fmap_cons, str_id_stored. simpl.
      symmetry. apply Permutation_cons_append.
Qed.

(** X17.  Whatever the body and whatever the outcome, [POST /appointment]
    and [POST /newsletter] leave the answers of [GET /articles],
    [GET /articles/{slug}], [GET /doctors] and [GET /sitemap.xml] as they
    were. *)
Theorem writes_leave_content_reads_unchanged (db : store) (body : gmap string json)
    (q category tag specialty state city pathology consultation_type : option string)
    (price_max : option Qc) (limit : option Z) (slug : string)
    (FRONTEND_URL : option string) :
  ∀ db', db' = (create_appointment db body).1
         ∨ db' = (subscribe_newsletter db body).1 →
    list_articles db' q category tag limit = list_articles db q category tag limit
    ∧ get_article db' slug = get_article db slug
    ∧ list_doctors db' specialty state city pathology consultation_type price_max limit
      = list_doctors db specialty state city pathology consultation_type price_max limit
    ∧ sitemap db' FRONTEND_URL = sitemap db FRONTEND_URL.
Proof.
  intros db' Hdb'.
  assert (∀ other filt n,
            other ≠ "appointmentrequest" → other ≠ "newslettersubscriber" →
            get_documents db' other filt n = get_documents db other filt n) as Hframe.
  { intros other filt n Ha Hn. destruct Hdb' as [-> | ->].
    - rewrite create_appointment_store.
      destruct (AppointmentRequest.model_validate body); [|done].
      by apply create_document_frame.
    - rewrite subscribe_newsletter_store.
      destruct (NewsletterSubscriber.model_validate body); [|done].
      by apply create_document_frame. }
  unfold list_articles, get_article, list_doctors, sitemap, sitemap_urls.
  split_and!.
  - destruct (Query_int 20 1 100 "limit" limit); [|done]. by apply Hframe.
  - by rewrite Hframe.
  - destruct (Query_float 0 "price_max" price_max); [|done].
    cbn [mbind result_bind].
    destruct (Query_int 50 1 100 "limit" limit); [|done]. by apply Hframe.
  - by rewrite Hframe.
Qed.

(** X18.  [POST /appointment] answers with a validation error exactly when
    the body does not validate, whatever the state of the store.  It
    answers with a storage error only when the body validates, and always
    when the body validates and the store cannot be reached.  It succeeds
    only when the body validates and the store can be reached, and then
    with status [ok].  A request that fails leaves the store as it was. *)
Theorem create_appointment_outcomes (db : store) (body : gmap string json) :
  let r := create_appointment db body in
  ((∃ loc, r.2 = Err (RequestValidationError loc))
     ↔ ∃ e, AppointmentRequest.model_validate body = Err e)
  ∧ (r.2 = Err StorageError → ∃ m, AppointmentRequest.model_validate body = Ok m)
  ∧ ((∃ m, AppointmentRequest.model_validate body = Ok m) → db = None →
       r.2 = Err StorageError)
  ∧ (∀ c, r.2 = Ok c →
       (∃ m, AppointmentRequest.model_validate body = Ok m)
       ∧ db ≠ None ∧ Created.status c = "ok")
  ∧ ((∀ c, r.2 ≠ Ok c) → r.1 = db).
Proof.
  intros r. subst r. unfold create_appointment.
  destruct (AppointmentRequest.model_validate body) as [m|e] eqn:Hv.
  - rewrite create_document_result. destruct db as [d|]; cbn [mbind result_bind fst snd].
    + split_and!.
      * split; [by intros [? ?]|by intros [? ?]].
      * done.
      * done.
      * intros c [= <-]. split_and!; [by eexists|done..].
      * intros Hno. by destruct (Hno {| Created.status := "ok";
                                        Created.id := pretty (next_oid d) |}).
    + split_and!.
      * split; [by intros [? ?]|by intros [? ?]].
      * intros _. by eexists.
      * done.
      * done.
      * done.
  - cbn [fst snd]. destruct (appointment_validation_error _ _ Hv) as [loc ->].
    split_and!.
    + split; [|by eexists]. intros _. by eexists.
    + done.
    + by intros [? ?].
    + done.
    + done.
Qed.

End Writes.

(** ** The further properties on the sample data *)

Lemma list_doctors_sound_witness :
  list_doctors (H:=reference) (Some sample_db) None (Some "SP") None None None
    (Some (brl 200)) None
  = Ok [returned_doctor (3%N, doctor "Ana" ["neurology"] ["SP"] (Some (brl 150)))]
  ∧ holds_value
      (returned_doctor (3%N, doctor "Ana" ["neurology"] ["SP"] (Some (brl 150)))
         !! "states") "SP".
Proof.
  split; [reflexivity|].
  destruct (list_doctors_sound (H:=reference) (Some sample_db)
              None (Some "SP") None None None (Some (brl 200)) None
              [returned_doctor (3%N, doctor "Ana" ["neurology"] ["SP"]
                                  (Some (brl 150)))]
              eq_refl
              (returned_doctor (3%N, doctor "Ana" ["neurology"] ["SP"]
                                  (Some (brl 150))))
              (list_elem_of_here _ _))
    as (_ & _ & Hstate & _).
  apply Hstate. reflexivity.
Defined.

Lemma list_articles_sound_witness :
  list_articles (H:=reference) (Some sample_db) None (Some "Research") (Some "cbd")
    None
  = Ok [returned_article (1%N, article "Cannabis basics" "basics"
                                 (Some "An overview") (Some "Research") ["cbd"])]
  ∧ holds_value
      (returned_article (1%N, article "Cannabis basics" "basics"
                                (Some "An overview") (Some "Research") ["cbd"])
         !! "category") "Research".
Proof.
  split; [reflexivity|].
  destruct (list_articles_sound (H:=reference) (Some sample_db)
              None (Some "Research") (Some "cbd") None
              [returned_article (1%N, article "Cannabis basics" "basics"
                                        (Some "An overview") (Some "Research")
                                        ["cbd"])]
              eq_refl
              (returned_article (1%N, article "Cannabis basics" "basics"
                                        (Some "An overview") (Some "Research")
                                        ["cbd"]))
              (list_elem_of_here _ _))
    as (_ & Hcategory & _).
  apply Hcategory. reflexivity.
Defined.

Lemma get_article_first_match_witness :
  collection twin_db "article" = stored_article <$> twin_articles
  ∧ get_article (H:=reference) (Some twin_db) "twin"
    = Ok (returned_article (2%N, article "Second" "twin" None None [])).
Proof.
  split; [reflexivity|].
  exact (proj1 (get_article_first_match (H:=reference) twin_db twin_articles "twin"
                  eq_refl)).
Defined.

Lemma smaller_limit_is_a_prefix_witness :
  list_articles (H:=reference) (Some sample_db) None None None (Some 2%Z)
  = Ok (returned_article <$> sample_articles)
  ∧ list_articles (H:=reference) (Some sample_db) None None None (Some 1%Z)
    = Ok (take 1 (returned_article <$> sample_articles)).
Proof.
  split; [reflexivity|].
  apply (proj1 (smaller_limit_is_a_prefix (H:=reference) (Some sample_db)
                  None None None None None None None None None 1 2
                  ltac:(lia) ltac:(lia))).
  reflexivity.
Defined.

Lemma q_case_is_ignored_witness :
  lower_string "CANNA" = lower_string "canna"
  ∧ list_articles (H:=reference) (Some sample_db) (Some "CANNA") None None None
    = list_articles (H:=reference) (Some sample_db) (Some "canna") None None None.
Proof.
  split; [reflexivity|].
  apply (q_case_is_ignored (H:=reference) sample_db sample_articles);
    [exact reference_literal|reflexivity..].
Defined.

Lemma resubmitted_record_is_accepted_witness :
  AppointmentRequest.model_validate (H:=reference) (appointment_body sample_request)
  = Ok sample_request
  ∧ NewsletterSubscriber.model_validate (H:=reference)
      (newsletter_body sample_subscriber)
    = Ok sample_subscriber.
Proof.
  apply (resubmitted_record_is_accepted (H:=reference)); reflexivity.
Defined.

Lemma writes_leave_content_reads_unchanged_witness :
  list_articles (H:=reference)
    (subscribe_newsletter (H:=reference) (Some sample_db) body_with_extra).1
    None None None None
  = list_articles (H:=reference) (Some sample_db) None None None None
  ∧ list_doctors (H:=reference)
      (create_appointment (H:=reference) (Some sample_db)
         (appointment_body sample_request)).1
      None None None None None None None
    = list_doctors (H:=reference) (Some sample_db) None None None None None None None.
Proof.
  split.
  - apply (writes_leave_content_reads_unchanged (H:=reference) (Some sample_db)
             body_with_extra None None None None None None None None None None
             "basics" None).
    by right.
  - apply (writes_leave_content_reads_unchanged (H:=reference) (Some sample_db)
             (appointment_body sample_request)
             None None None None None None None None None None "basics" None).
    by left.
Defined.

Lemma empty_string_is_absent_witness :
  list_doctors (H:=reference) (Some free_db) None None None None None
    (Some 0%Qc) None
  = Ok [returned_doctor (1%N, doctor "Davi" ["neurology"] ["SP"] (Some (brl 0)))]
  ∧ list_doctors (H:=reference) (Some free_db) None None None None None None None
    = Ok (returned_doctor <$> free_doctors)
  ∧ list_doctors (H:=reference) (Some free_db) None (Some "") None None None
      None None
    = list_doctors (H:=reference) (Some free_db) None None None None None None None
  ∧ (∃ p, returned_doctor (1%N, doctor "Davi" ["neurology"] ["SP"] (Some (brl 0)))
            !! "price_from" = Some (BNum p) ∧ (p ≤ 0)%Qc).
Proof.
  destruct (empty_string_is_absent (H:=reference) (Some free_db)
              None None None None None None None None None None)
    as (_ & _ & _ & _ & Hstate & _ & _ & _ & _ & _ & Hsound & Hexact).
  split_and!.
  - apply (Hexact free_db free_doctors); [reflexivity..|exact I].
  - reflexivity.
  - exact Hstate.
  - apply (Hsound [returned_doctor (1%N, doctor "Davi" ["neurology"] ["SP"]
                                      (Some (brl 0)))]).
    + reflexivity.
    + apply list_elem_of_here.
Defined.
